(** * Registry layer over a versioned key-value store

  A shallow embedding of the two etcd-backed registries
  ([pkg/deploy/registry/etcd/etcd.go] and
  [pkg/image/registry/etcd/etcd.go]) and the properties of their
  resource keying, resource-version cursor, selector filtering, error
  routing and watch predicates.

  Conventions of the embedding:
  - a Go [string] is a [string] (a sequence of bytes);
  - a [uint64] is a [Z] in [0, 2^64), every arithmetic result being
    reduced by [wrap64];
  - a Go [error] is an [option]: [None] is [nil];
  - a pointer to a struct is the struct itself ([nil] receivers and
    arguments are outside the model), a returned pointer that may be
    [nil] is an [option];
  - calls to the embedded [tools.EtcdHelper] and to [glog] are nodes of
    a program tree ([Prog]); a handler gives them a meaning, and stands
    for the receiver of the registry methods. *)

From Stdlib Require Import ZArith Ascii String List Lia.
From stdpp Require Import base option list strings gmap.

Local Open Scope string_scope.
Local Open Scope Z_scope.

(** ** Machine integers *)

Definition wrap64 (z : Z) : Z := z mod 2 ^ 64.

Definition maxUint64 : Z := 2 ^ 64 - 1.

Definition is_uint64 (z : Z) : Prop := 0 <= z <= maxUint64.

(** ** Errors *)

(** The two sentinel errors of [strconv]. *)
Inductive strconvErr : Type := ErrSyntax | ErrRange.

(** What the backing store reports when a call fails (spec, section 6:
    the error distinguishes "not found" from other failures). *)
Inductive StoreFailure : Type :=
| KeyAbsent
| KeyPresent
| ConcurrentModification
| OtherFailure (detail : string).

Inductive Operation : Type := OpGet | OpCreate | OpUpdate | OpDelete.

Definition operationName (op : Operation) : string :=
  match op with
  | OpGet => "get"
  | OpCreate => "create"
  | OpUpdate => "update"
  | OpDelete => "delete"
  end.

Inductive Reason : Type := NotFound | AlreadyExists | Conflict | Internal.

(** The dynamic values an [error] interface holds in these packages. *)
Inductive goError : Type :=
| NumError (Func Num : string) (Err : strconvErr)   (* *strconv.NumError *)
| errorString (s : string)                          (* errors.New(s) *)
| StoreError (f : StoreFailure)                     (* from the store client *)
| DomainError (reason : Reason) (operation kind id : string)
| InvalidResourceVersion (kind value : string).

Abbreviation error := (option goError).

Module errors.
Definition New (text : string) : error := Some (errorString text).
End errors.

(** ** strconv.ParseUint *)

Module strconv.

Definition byteOf (c : ascii) : Z := Z.of_N (N_of_ascii c).

(** [lower(c)]: [c | ('x' - 'X')]. *)
Definition lower (c : ascii) : Z := Z.lor (byteOf c) 32.

(** The digit a byte stands for, the [switch] of the loop body; [None]
    is its [default] arm.  The underscore arm needs [base == 0]. *)
Definition digit (c : ascii) : option Z :=
  let b := byteOf c in
  if (48 <=? b) && (b <=? 57) then Some (b - 48)
  else if (97 <=? lower c) && (lower c <=? 122) then Some (lower c - 97 + 10)
  else None.

(** Smallest number such that [cutoff * 10 > maxUint64]. *)
Definition cutoff : Z := maxUint64 / 10 + 1.

(** The loop of [ParseUint] over the bytes of [s], for [base = 10] and
    [bitSize = 64] (so [maxVal = maxUint64]); [n] is the value
    accumulated so far. *)
Fixpoint parseLoop (s : string) (n : Z) : Z + strconvErr :=
  match s with
  | EmptyString => inl n
  | String c rest =>
      match digit c with
      | None => inr ErrSyntax
      | Some d =>
          if 10 <=? d then inr ErrSyntax
          else if cutoff <=? n then inr ErrRange
          else
            let n := wrap64 (n * 10) in
            let n1 := wrap64 (n + d) in
            if (n1 <? n) || (maxUint64 <? n1) then inr ErrRange
            else parseLoop rest n1
      end
  end.

(** [strconv.ParseUint(s, 10, 64)].  The function belongs to the Go
    standard library; this follows its body for the one base and bit
    size the registries use. *)
Definition ParseUint (s : string) : Z * error :=
  if String.eqb s "" then (0, Some (NumError "ParseUint" s ErrSyntax))
  else
    match parseLoop s 0 with
    | inl n => (n, None)
    | inr ErrSyntax => (0, Some (NumError "ParseUint" s ErrSyntax))
    | inr ErrRange => (maxUint64, Some (NumError "ParseUint" s ErrRange))
    end.

End strconv.

(** *** Decimal numerals, independently of the parser *)

Definition isDigit (c : ascii) : bool :=
  (48 <=? strconv.byteOf c) && (strconv.byteOf c <=? 57).

(** Value of the digit string [s] read after the prefix value [acc]; no
    bound on the size. *)
Fixpoint digitsValue (s : string) (acc : Z) : option Z :=
  match s with
  | EmptyString => Some acc
  | String c rest =>
      if isDigit c then digitsValue rest (acc * 10 + (strconv.byteOf c - 48))
      else None
  end.

(** [decimal s = Some N]: [s] is a non-empty string of decimal digits
    that denotes the natural number [N]. *)
Definition decimal (s : string) : option Z :=
  match s with
  | EmptyString => None
  | _ => digitsValue s 0
  end.

(** ** The error translator *)

Module etcderr.

Definition classify (op : Operation) (f : goError) : Reason :=
  match op, f with
  | OpGet, StoreError KeyAbsent => NotFound
  | OpDelete, StoreError KeyAbsent => NotFound
  | OpCreate, StoreError KeyPresent => AlreadyExists
  | OpUpdate, StoreError ConcurrentModification => Conflict
  | OpDelete, StoreError ConcurrentModification => Conflict
  | _, _ => Internal
  end.

(** Modelled from the spec: the error translator of section 4.4, which
    lives in the imported package [pkg/api/errors/etcd] and is not
    part of the sources.  A nil store error translates to nil; every
    other outcome becomes a domain error of the taxonomy, tagged with
    the operation name, the kind and the id. *)
Definition translate (storeError : error) (op : Operation)
    (kind id : string) : error :=
  match storeError with
  | None => None
  | Some f => Some (DomainError (classify op f) (operationName op) kind id)
  end.

Definition InterpretGetError (err : error) (kind id : string) : error :=
  translate err OpGet kind id.
Definition InterpretCreateError (err : error) (kind id : string) : error :=
  translate err OpCreate kind id.
Definition InterpretUpdateError (err : error) (kind id : string) : error :=
  translate err OpUpdate kind id.
Definition InterpretDeleteError (err : error) (kind id : string) : error :=
  translate err OpDelete kind id.

(** Modelled from the spec: the translator's resource-version case
    (sections 4.2 and 4.4), from the same imported package: the error
    carries the kind and the offending token. *)
Definition InterpretResourceVersionError (err : error)
    (kind value : string) : error :=
  match err with
  | None => None
  | Some _ => Some (InvalidResourceVersion kind value)
  end.

End etcderr.

(** ** Programs over external calls *)

(** A computation that returns an [A] after finitely many calls from
    the signature [E]; [E X] is a call answered by an [X]. *)
Inductive Prog (E : Type -> Type) (A : Type) : Type :=
| Ret (a : A)
| Call (X : Type) (e : E X) (k : X -> Prog E A).

Arguments Ret {E A} a.
Arguments Call {E A X} e k.

Fixpoint bind {E A B} (p : Prog E A) (f : A -> Prog E B) : Prog E B :=
  match p with
  | Ret a => f a
  | Call e k => Call e (fun x => bind (k x) f)
  end.

#[global] Instance Prog_ret {E} : MRet (Prog E) := fun _ a => Ret a.
#[global] Instance Prog_bind {E} : MBind (Prog E) := fun _ _ f p => bind p f.

(** A single call. *)
Definition call {E X} (e : E X) : Prog E X := Call e Ret.

(** A handler answers every call, threading a state of its own. *)
Definition handler (E : Type -> Type) (S : Type) : Type :=
  forall X, E X -> S -> X * S.

Fixpoint run {E S A} (h : handler E S) (p : Prog E A) (s : S) : A * S :=
  match p with
  | Ret a => (a, s)
  | Call e k => let (x, s') := h _ e s in run h (k x) s'
  end.

(** The calls a program issues, in order, when [h] answers them. *)
Fixpoint trace {E S A} (h : handler E S) (p : Prog E A) (s : S)
    : list (sigT E) :=
  match p with
  | Ret _ => []
  | Call e k => let (x, s') := h _ e s in existT _ e :: trace h (k x) s'
  end.

(** ** API types *)

(** Kind-specific fields that no registry function reads. *)
Definition Payload : Type := string.

Module labels.

(** [labels.Set]: a [map[string]string]. *)
Definition Set_ (m : gmap string string) : gmap string string := m.

(** [labels.Selector]: anything with a [Matches] method. *)
Record Selector : Type := { Matches : gmap string string -> bool }.

(** [labels.Everything()]. *)
Definition Everything : Selector := {| Matches := fun _ => true |}.

End labels.

(** Modelled from the spec: the resource types of [pkg/deploy/api]
    (section 3: an id, a mapping of string labels, kind-specific payload
    fields) and their list types, whose declarations are not part of the
    sources. *)
Module deployapi.

Module Deployment.
Record t : Type := { ID : string; Labels : gmap string string; Fields : Payload }.
Definition zero : t := {| ID := ""; Labels := ∅; Fields := "" |}.
End Deployment.

Module DeploymentList.
Record t : Type := { Meta : Payload; Items : list Deployment.t }.
Definition zero : t := {| Meta := ""; Items := [] |}.
Definition setItems (l : t) (items : list Deployment.t) : t :=
  {| Meta := Meta l; Items := items |}.
End DeploymentList.

Module DeploymentConfig.
Record t : Type := { ID : string; Labels : gmap string string; Fields : Payload }.
Definition zero : t := {| ID := ""; Labels := ∅; Fields := "" |}.
End DeploymentConfig.

Module DeploymentConfigList.
Record t : Type := { Meta : Payload; Items : list DeploymentConfig.t }.
Definition zero : t := {| Meta := ""; Items := [] |}.
Definition setItems (l : t) (items : list DeploymentConfig.t) : t :=
  {| Meta := Meta l; Items := items |}.
End DeploymentConfigList.

End deployapi.

(** Modelled from the spec: the resource types of [pkg/image/api], in
    the same way. *)
Module imageapi.

Module Image.
Record t : Type := { ID : string; Labels : gmap string string; Fields : Payload }.
Definition zero : t := {| ID := ""; Labels := ∅; Fields := "" |}.
End Image.

Module ImageList.
Record t : Type := { Meta : Payload; Items : list Image.t }.
Definition zero : t := {| Meta := ""; Items := [] |}.
Definition setItems (l : t) (items : list Image.t) : t :=
  {| Meta := Meta l; Items := items |}.
End ImageList.

Module ImageRepository.
Record t : Type := { ID : string; Labels : gmap string string; Fields : Payload }.
Definition zero : t := {| ID := ""; Labels := ∅; Fields := "" |}.
End ImageRepository.

Module ImageRepositoryList.
Record t : Type := { Meta : Payload; Items : list ImageRepository.t }.
Definition zero : t := {| Meta := ""; Items := [] |}.
Definition setItems (l : t) (items : list ImageRepository.t) : t :=
  {| Meta := Meta l; Items := items |}.
End ImageRepositoryList.

End imageapi.

Module runtime.

(** [runtime.Object]: an interface value, that is a value together with
    its dynamic type.  [Other] stands for every type outside the two
    API packages. *)
Inductive Object : Type :=
| Deployment (d : deployapi.Deployment.t)
| DeploymentConfig (c : deployapi.DeploymentConfig.t)
| Image (i : imageapi.Image.t)
| ImageRepository (r : imageapi.ImageRepository.t)
| Other (typeName : string) (value : Payload).

(** The static types the registries decode into. *)
Inductive apiType : Type :=
| TDeployment | TDeploymentConfig | TImage | TImageRepository.

Definition objOf (T : apiType) : Type :=
  match T with
  | TDeployment => deployapi.Deployment.t
  | TDeploymentConfig => deployapi.DeploymentConfig.t
  | TImage => imageapi.Image.t
  | TImageRepository => imageapi.ImageRepository.t
  end.

Definition listOf (T : apiType) : Type :=
  match T with
  | TDeployment => deployapi.DeploymentList.t
  | TDeploymentConfig => deployapi.DeploymentConfigList.t
  | TImage => imageapi.ImageList.t
  | TImageRepository => imageapi.ImageRepositoryList.t
  end.

(** Type assertions of an interface value to a pointer type of the API
    packages: the typed value when [obj] has that dynamic type, and
    [ok = false] ([None]) otherwise. *)
Definition assertDeployment (obj : Object) : option deployapi.Deployment.t :=
  match obj with Deployment d => Some d | _ => None end.

Definition assertDeploymentConfig (obj : Object)
    : option deployapi.DeploymentConfig.t :=
  match obj with DeploymentConfig c => Some c | _ => None end.

Definition assertImageRepository (obj : Object)
    : option imageapi.ImageRepository.t :=
  match obj with ImageRepository r => Some r | _ => None end.

End runtime.

Module glog.

(** [glog.Errorf(format, arg)]: one diagnostic on the process-wide log. *)
Inductive call : Type -> Type :=
| Errorf (format : string) (arg : runtime.Object) : call unit.

(** The log as a handler state: the diagnostics in the order written. *)
Definition record : handler call (list (string * runtime.Object)) :=
  fun X e =>
    match e in call X return list (string * runtime.Object) -> X * _ with
    | Errorf format arg => fun log => (tt, (log ++ [(format, arg)])%list)
    end.

End glog.

Module watch.

Inductive EventType : Type := Added | Modified | Deleted.

Record Event : Type := { Type_ : EventType; Object : runtime.Object }.

(** [watch.Interface]: an open subscription. *)
Inductive Interface : Type := subscription (handle : nat).

End watch.

Module tools.

(** The methods of [tools.EtcdHelper] the registries call.  An
    [Extract] call names the static type of the pointer it decodes
    into and is answered by the new content of the pointee. *)
Inductive call : Type -> Type :=
| ExtractToList (key : string) (T : runtime.apiType)
    (listObj : runtime.listOf T) : call (runtime.listOf T * error)
| ExtractObj (key : string) (T : runtime.apiType)
    (objPtr : runtime.objOf T) (ignoreNotFound : bool)
    : call (runtime.objOf T * error)
| CreateObj (key : string) (obj : runtime.Object) (ttl : Z) : call error
| SetObj (key : string) (obj : runtime.Object) : call error
| Delete (key : string) (recursive : bool) : call error
| WatchList (key : string) (resourceVersion : Z)
    (filter : runtime.Object -> Prog glog.call bool)
    : call (option watch.Interface * error).

(** The error part of an answer. *)
Definition errorOf {X} (e : call X) : X -> error :=
  match e in call X return X -> error with
  | ExtractToList _ _ _ => snd
  | ExtractObj _ _ _ _ => snd
  | CreateObj _ _ _ => fun err => err
  | SetObj _ _ => fun err => err
  | Delete _ _ => fun err => err
  | WatchList _ _ _ => snd
  end.

End tools.

(** ** The deployment registry: [pkg/deploy/registry/etcd/etcd.go] *)

Module deployetcd.

Import deployapi.

(** Etcd implements deployment.Registry and deploymentconfig.Registry
    interfaces: a struct that embeds the helper, so a registry is its
    helper and a method runs against it. *)
Definition Etcd (S : Type) : Type := handler tools.call S.

(** New creates an etcd registry. *)
Definition New {S : Type} (helper : handler tools.call S) : Etcd S := helper.

(** ListDeployments obtains a list of Deployments. *)
Definition ListDeployments (selector : labels.Selector)
    : Prog tools.call (option DeploymentList.t * error) :=
  let deployments := DeploymentList.zero in
  '(deployments, err) ←
    call (tools.ExtractToList "/deployments" runtime.TDeployment deployments);
  match err with
  | Some _ => mret (None, err)
  | None =>
      let filtered :=
        fold_left
          (fun filtered item =>
             if labels.Matches selector (labels.Set_ (Deployment.Labels item))
             then (filtered ++ [item])%list
             else filtered)
          (DeploymentList.Items deployments) [] in
      let deployments := DeploymentList.setItems deployments filtered in
      mret (Some deployments, err)
  end.

Definition makeDeploymentKey (id : string) : string :=
  "/deployments/" +:+ id.

(** GetDeployment gets a specific Deployment specified by its ID. *)
Definition GetDeployment (id : string)
    : Prog tools.call (option Deployment.t * error) :=
  let deployment := Deployment.zero in
  let key := makeDeploymentKey id in
  '(deployment, err) ←
    call (tools.ExtractObj key runtime.TDeployment deployment false);
  match err with
  | Some _ => mret (None, etcderr.InterpretGetError err "deployment" id)
  | None => mret (Some deployment, None)
  end.

(** CreateDeployment creates a new Deployment. *)
Definition CreateDeployment (deployment : Deployment.t)
    : Prog tools.call error :=
  err ← call (tools.CreateObj (makeDeploymentKey (Deployment.ID deployment))
                (runtime.Deployment deployment) 0);
  mret (etcderr.InterpretCreateError err "deployment" (Deployment.ID deployment)).

(** UpdateDeployment replaces an existing Deployment. *)
Definition UpdateDeployment (deployment : Deployment.t)
    : Prog tools.call error :=
  err ← call (tools.SetObj (makeDeploymentKey (Deployment.ID deployment))
                (runtime.Deployment deployment));
  mret (etcderr.InterpretUpdateError err "deployment" (Deployment.ID deployment)).

(** DeleteDeployment deletes a Deployment specified by its ID. *)
Definition DeleteDeployment (id : string) : Prog tools.call error :=
  let key := makeDeploymentKey id in
  err ← call (tools.Delete key false);
  mret (etcderr.InterpretDeleteError err "deployment" id).

(** parseWatchResourceVersion takes a resource version argument and
    converts it to the etcd version we should pass to helper.Watch(). *)
Definition parseWatchResourceVersion (resourceVersion kind : string)
    : Z * error :=
  if String.eqb resourceVersion "" || String.eqb resourceVersion "0"
  then (0, None)
  else
    let '(version, err) := strconv.ParseUint resourceVersion in
    match err with
    | Some _ =>
        (0, etcderr.InterpretResourceVersionError err kind resourceVersion)
    | None => (wrap64 (version + 1), None)
    end.

(** The function literal that WatchDeployments hands to WatchList. *)
Definition WatchDeployments_func1 (filter : Deployment.t -> Prog glog.call bool)
    (obj : runtime.Object) : Prog glog.call bool :=
  match runtime.assertDeployment obj with
  | Some deployment => filter deployment
  | None =>
      _ ← call (glog.Errorf "Unexpected object during deployment watch: %#v" obj);
      mret false
  end.

(** WatchDeployments begins watching for new, changed, or deleted
    Deployments. *)
Definition WatchDeployments (resourceVersion : string)
    (filter : Deployment.t -> Prog glog.call bool)
    : Prog tools.call (option watch.Interface * error) :=
  let '(version, err) := parseWatchResourceVersion resourceVersion "deployment" in
  match err with
  | Some _ => mret (None, err)
  | None =>
      call (tools.WatchList "/deployments" version (WatchDeployments_func1 filter))
  end.

(** ListDeploymentConfigs obtains a list of DeploymentConfigs. *)
Definition ListDeploymentConfigs (selector : labels.Selector)
    : Prog tools.call (option DeploymentConfigList.t * error) :=
  let deploymentConfigs := DeploymentConfigList.zero in
  '(deploymentConfigs, err) ←
    call (tools.ExtractToList "/deploymentConfigs" runtime.TDeploymentConfig
            deploymentConfigs);
  match err with
  | Some _ => mret (None, err)
  | None =>
      let filtered :=
        fold_left
          (fun filtered item =>
             if labels.Matches selector
                  (labels.Set_ (DeploymentConfig.Labels item))
             then (filtered ++ [item])%list
             else filtered)
          (DeploymentConfigList.Items deploymentConfigs) [] in
      let deploymentConfigs :=
        DeploymentConfigList.setItems deploymentConfigs filtered in
      mret (Some deploymentConfigs, err)
  end.

(** The function literal that WatchDeploymentConfigs hands to WatchList. *)
Definition WatchDeploymentConfigs_func1
    (filter : DeploymentConfig.t -> Prog glog.call bool)
    (obj : runtime.Object) : Prog glog.call bool :=
  match runtime.assertDeploymentConfig obj with
  | Some config => filter config
  | None =>
      _ ← call (glog.Errorf
                  "Unexpected object during deploymentConfig watch: %#v" obj);
      mret false
  end.

(** WatchDeploymentConfigs begins watching for new, changed, or deleted
    DeploymentConfigs. *)
Definition WatchDeploymentConfigs (resourceVersion : string)
    (filter : DeploymentConfig.t -> Prog glog.call bool)
    : Prog tools.call (option watch.Interface * error) :=
  let '(version, err) :=
    parseWatchResourceVersion resourceVersion "deploymentConfig" in
  match err with
  | Some _ => mret (None, err)
  | None =>
      call (tools.WatchList "/deploymentConfigs" version
              (WatchDeploymentConfigs_func1 filter))
  end.

Definition makeDeploymentConfigKey (id : string) : string :=
  "/deploymentConfigs/" +:+ id.

(** GetDeploymentConfig gets a specific DeploymentConfig specified by
    its ID. *)
Definition GetDeploymentConfig (id : string)
    : Prog tools.call (option DeploymentConfig.t * error) :=
  let deploymentConfig := DeploymentConfig.zero in
  let key := makeDeploymentConfigKey id in
  '(deploymentConfig, err) ←
    call (tools.ExtractObj key runtime.TDeploymentConfig deploymentConfig false);
  match err with
  | Some _ => mret (None, etcderr.InterpretGetError err "deploymentConfig" id)
  | None => mret (Some deploymentConfig, None)
  end.

(** CreateDeploymentConfig creates a new DeploymentConfig. *)
Definition CreateDeploymentConfig (deploymentConfig : DeploymentConfig.t)
    : Prog tools.call error :=
  err ← call (tools.CreateObj
                (makeDeploymentConfigKey (DeploymentConfig.ID deploymentConfig))
                (runtime.DeploymentConfig deploymentConfig) 0);
  mret (etcderr.InterpretCreateError err "deploymentConfig"
          (DeploymentConfig.ID deploymentConfig)).

(** UpdateDeploymentConfig replaces an existing DeploymentConfig. *)
Definition UpdateDeploymentConfig (deploymentConfig : DeploymentConfig.t)
    : Prog tools.call error :=
  err ← call (tools.SetObj
                (makeDeploymentConfigKey (DeploymentConfig.ID deploymentConfig))
                (runtime.DeploymentConfig deploymentConfig));
  mret (etcderr.InterpretUpdateError err "deploymentConfig"
          (DeploymentConfig.ID deploymentConfig)).

(** DeleteDeploymentConfig deletes a DeploymentConfig specified by its
    ID. *)
Definition DeleteDeploymentConfig (id : string) : Prog tools.call error :=
  let key := makeDeploymentConfigKey id in
  err ← call (tools.Delete key false);
  mret (etcderr.InterpretDeleteError err "deploymentConfig" id).

End deployetcd.

(** ** The image registry: [pkg/image/registry/etcd/etcd.go] *)

Module imageetcd.

Import imageapi.

(** Etcd implements ImageRegistry and ImageRepositoryRegistry backed by
    etcd: a struct that embeds the helper. *)
Definition Etcd (S : Type) : Type := handler tools.call S.

(** New returns a new etcd registry. *)
Definition New {S : Type} (helper : handler tools.call S) : Etcd S := helper.

(** ListImages retrieves a list of images that match selector. *)
Definition ListImages (selector : labels.Selector)
    : Prog tools.call (option ImageList.t * error) :=
  let list := ImageList.zero in
  '(list, err) ← call (tools.ExtractToList "/images" runtime.TImage list);
  match err with
  | Some _ => mret (None, err)
  | None =>
      let filtered :=
        fold_left
          (fun filtered item =>
             if labels.Matches selector (labels.Set_ (Image.Labels item))
             then (filtered ++ [item])%list
             else filtered)
          (ImageList.Items list) [] in
      let list := ImageList.setItems list filtered in
      mret (Some list, None)
  end.

Definition makeImageKey (id : string) : string :=
  "/images/" +:+ id.

(** GetImage retrieves a specific image. *)
Definition GetImage (id : string)
    : Prog tools.call (option Image.t * error) :=
  let image := Image.zero in
  '(image, err) ←
    call (tools.ExtractObj (makeImageKey id) runtime.TImage image false);
  match err with
  | Some _ => mret (None, etcderr.InterpretGetError err "image" id)
  | None => mret (Some image, None)
  end.

(** CreateImage creates a new image. *)
Definition CreateImage (image : Image.t) : Prog tools.call error :=
  err ← call (tools.CreateObj (makeImageKey (Image.ID image))
                (runtime.Image image) 0);
  mret (etcderr.InterpretCreateError err "image" (Image.ID image)).

(** UpdateImage updates an existing image. *)
Definition UpdateImage (image : Image.t) : Prog tools.call error :=
  mret (errors.New "not supported").

(** DeleteImage deletes an existing image. *)
Definition DeleteImage (id : string) : Prog tools.call error :=
  let key := makeImageKey id in
  err ← call (tools.Delete key false);
  mret (etcderr.InterpretDeleteError err "image" id).

(** ListImageRepositories retrieves a list of ImageRepositories that
    match selector. *)
Definition ListImageRepositories (selector : labels.Selector)
    : Prog tools.call (option ImageRepositoryList.t * error) :=
  let list := ImageRepositoryList.zero in
  '(list, err) ←
    call (tools.ExtractToList "/imageRepositories" runtime.TImageRepository list);
  match err with
  | Some _ => mret (None, err)
  | None =>
      let filtered :=
        fold_left
          (fun filtered item =>
             if labels.Matches selector
                  (labels.Set_ (ImageRepository.Labels item))
             then (filtered ++ [item])%list
             else filtered)
          (ImageRepositoryList.Items list) [] in
      let list := ImageRepositoryList.setItems list filtered in
      mret (Some list, None)
  end.

Definition makeImageRepositoryKey (id : string) : string :=
  "/imageRepositories/" +:+ id.

(** GetImageRepository retrieves an ImageRepository by id. *)
Definition GetImageRepository (id : string)
    : Prog tools.call (option ImageRepository.t * error) :=
  let repo := ImageRepository.zero in
  '(repo, err) ←
    call (tools.ExtractObj (makeImageRepositoryKey id)
            runtime.TImageRepository repo false);
  match err with
  | Some _ => mret (None, etcderr.InterpretGetError err "imageRepository" id)
  | None => mret (Some repo, None)
  end.

(** parseWatchResourceVersion takes a resource version argument and
    converts it to the etcd version we should pass to helper.Watch(). *)
Definition parseWatchResourceVersion (resourceVersion kind : string)
    : Z * error :=
  if String.eqb resourceVersion "" || String.eqb resourceVersion "0"
  then (0, None)
  else
    let '(version, err) := strconv.ParseUint resourceVersion in
    match err with
    | Some _ =>
        (0, etcderr.InterpretResourceVersionError err kind resourceVersion)
    | None => (wrap64 (version + 1), None)
    end.

(** The function literal that WatchImageRepositories hands to
    WatchList. *)
Definition WatchImageRepositories_func1
    (filter : ImageRepository.t -> Prog glog.call bool)
    (obj : runtime.Object) : Prog glog.call bool :=
  match runtime.assertImageRepository obj with
  | Some repo => filter repo
  | None =>
      _ ← call (glog.Errorf
                  "Unexpected object during image repository watch: %#v" obj);
      mret false
  end.

(** WatchImageRepositories begins watching for new, changed, or deleted
    ImageRepositories. *)
Definition WatchImageRepositories (resourceVersion : string)
    (filter : ImageRepository.t -> Prog glog.call bool)
    : Prog tools.call (option watch.Interface * error) :=
  let '(version, err) :=
    parseWatchResourceVersion resourceVersion "imageRepository" in
  match err with
  | Some _ => mret (None, err)
  | None =>
      call (tools.WatchList "/imageRepositories" version
              (WatchImageRepositories_func1 filter))
  end.

(** CreateImageRepository registers the given ImageRepository. *)
Definition CreateImageRepository (repo : ImageRepository.t)
    : Prog tools.call error :=
  err ← call (tools.CreateObj (makeImageRepositoryKey (ImageRepository.ID repo))
                (runtime.ImageRepository repo) 0);
  mret (etcderr.InterpretCreateError err "imageRepository"
          (ImageRepository.ID repo)).

(** UpdateImageRepository replaces an existing ImageRepository in the
    registry with the given ImageRepository. *)
Definition UpdateImageRepository (repo : ImageRepository.t)
    : Prog tools.call error :=
  err ← call (tools.SetObj (makeImageRepositoryKey (ImageRepository.ID repo))
                (runtime.ImageRepository repo));
  mret (etcderr.InterpretUpdateError err "imageRepository"
          (ImageRepository.ID repo)).

(** DeleteImageRepository deletes an ImageRepository by id. *)
Definition DeleteImageRepository (id : string) : Prog tools.call error :=
  let imageRepositoryKey := makeImageRepositoryKey id in
  err ← call (tools.Delete imageRepositoryKey false);
  mret (etcderr.InterpretDeleteError err "imageRepository" id).

End imageetcd.

(** ** The delivery loop of a watch *)

Module watcher.

(** Modelled from the spec: the Watch Adapter of section 4.5, which is
    the body of [tools.EtcdHelper.WatchList] and is not part of the
    sources.  Every raw change the store delivers is handed to the
    filter in turn and forwarded only if the filter returns true; a
    dropped event does not end the stream.  [raw] is a finite prefix of
    the store's change feed. *)
Fixpoint deliver (filter : runtime.Object -> Prog glog.call bool)
    (raw : list watch.Event) : Prog glog.call (list watch.Event) :=
  match raw with
  | [] => mret []
  | ev :: rest =>
      ok ← filter (watch.Object ev);
      forwarded ← deliver filter rest;
      mret (if ok : bool then ev :: forwarded else forwarded)
  end.

End watcher.

(** ** A store double *)

Module fake.

(** Answers every store call the same way: with the error [err] and the
    pointee untouched when [err] is not nil, and otherwise with the
    content [lists] and [objs] hold for the static type asked for.  The
    state counts the calls received. *)
Definition store (lists : forall T, runtime.listOf T)
    (objs : forall T, runtime.objOf T) (err : error)
    : handler tools.call nat :=
  fun X e =>
    match e in tools.call X return nat -> X * nat with
    | tools.ExtractToList _ T listObj =>
        fun n => ((if err is Some _ then listObj else lists T, err), S n)
    | tools.ExtractObj _ T objPtr _ =>
        fun n => ((if err is Some _ then objPtr else objs T, err), S n)
    | tools.CreateObj _ _ _ => fun n => (err, S n)
    | tools.SetObj _ _ => fun n => (err, S n)
    | tools.Delete _ _ => fun n => (err, S n)
    | tools.WatchList _ _ _ =>
        fun n =>
          ((if err is Some _ then None else Some (watch.subscription n), err),
           S n)
    end.

Definition noLists (T : runtime.apiType) : runtime.listOf T :=
  match T with
  | runtime.TDeployment => deployapi.DeploymentList.zero
  | runtime.TDeploymentConfig => deployapi.DeploymentConfigList.zero
  | runtime.TImage => imageapi.ImageList.zero
  | runtime.TImageRepository => imageapi.ImageRepositoryList.zero
  end.

Definition noObjs (T : runtime.apiType) : runtime.objOf T :=
  match T with
  | runtime.TDeployment => deployapi.Deployment.zero
  | runtime.TDeploymentConfig => deployapi.DeploymentConfig.zero
  | runtime.TImage => imageapi.Image.zero
  | runtime.TImageRepository => imageapi.ImageRepository.zero
  end.

(** A selector for one label, in the manner of
    [labels.SelectorFromSet]. *)
Definition labelled (key value : string) : labels.Selector :=
  {| labels.Matches := fun set => bool_decide (set !! key = Some value) |}.

Definition deployment (id env : string) : deployapi.Deployment.t :=
  {| deployapi.Deployment.ID := id;
     deployapi.Deployment.Labels := {[ "env" := env ]};
     deployapi.Deployment.Fields := "" |}.

Definition image (id : string) : imageapi.Image.t :=
  {| imageapi.Image.ID := id;
     imageapi.Image.Labels := ∅;
     imageapi.Image.Fields := "" |}.

(** A store content: three deployments, nothing else. *)
Definition someLists (T : runtime.apiType) : runtime.listOf T :=
  match T with
  | runtime.TDeployment =>
      {| deployapi.DeploymentList.Meta := "v7";
         deployapi.DeploymentList.Items :=
           [deployment "c" "prod"; deployment "a" "test"; deployment "b" "prod"] |}
  | T => noLists T
  end.

(** A change feed with an object of a foreign type in the middle. *)
Definition someChanges : list watch.Event :=
  [ {| watch.Type_ := watch.Added;
       watch.Object := runtime.Deployment (deployment "a" "prod") |};
    {| watch.Type_ := watch.Added;
       watch.Object := runtime.Image (image "i") |};
    {| watch.Type_ := watch.Modified;
       watch.Object := runtime.Deployment (deployment "b" "test") |};
    {| watch.Type_ := watch.Deleted;
       watch.Object := runtime.Deployment (deployment "c" "prod") |} ].

End fake.

(** * Contracts *)

(** The statements below are shared by the functions that the two
    packages write out once per resource kind. *)

(** ** Resource-version tokens *)

(** What the spec asks of a cursor parser, with the successor case
    limited to the tokens whose successor is still a [uint64], and with
    the tokens that denote a number beyond 64 bits among the rejected
    ones. *)
Definition cursorContract (parse : string -> string -> Z * error) : Prop :=
  forall kind token : string,
    (token = "" \/ token = "0" -> parse token kind = (0, None)) /\
    (forall N, decimal token = Some N -> token <> "0" ->
       N + 1 <= maxUint64 -> parse token kind = (N + 1, None)) /\
    (token <> "" -> decimal token = None ->
       parse token kind = (0, Some (InvalidResourceVersion kind token))) /\
    (forall N, decimal token = Some N -> maxUint64 < N ->
       parse token kind = (0, Some (InvalidResourceVersion kind token))).

(** The largest [uint64], written out as a token. *)
Definition maxToken : string := "18446744073709551615".

(** The version a token denotes on the wire: a non-empty string of
    decimal digits whose value fits 64 bits. *)
Definition versionOf (token : string) : option Z :=
  match decimal token with
  | Some N => if N <=? maxUint64 then Some N else None
  | None => None
  end.

(** A Watch function rejects a token that is present and denotes no
    version: it returns the error and no stream, without a call to the
    store. *)
Definition rejectsInvalidVersion {T : Type}
    (Watch : string -> (T -> Prog glog.call bool) ->
             Prog tools.call (option watch.Interface * error))
    (kind : string) : Prop :=
  forall (token : string) (filter : T -> Prog glog.call bool),
    token <> "" -> versionOf token = None ->
    Watch token filter = Ret (None, Some (InvalidResourceVersion kind token)) /\
    forall (S : Type) (h : handler tools.call S) (s : S),
      run h (Watch token filter) s
        = ((None, Some (InvalidResourceVersion kind token)), s) /\
      trace h (Watch token filter) s = [].

(** ** Listing *)

(** The loop every List function runs over the extracted items. *)
Definition selectLoop {I : Type} (Labels : I -> gmap string string)
    (selector : labels.Selector) (items : list I) : list I :=
  fold_left
    (fun filtered item =>
       if labels.Matches selector (labels.Set_ (Labels item))
       then (filtered ++ [item])%list
       else filtered)
    items [].

(** A List function, on a successful extraction of the collection [l]:
    it returns a collection, with no error, whose items are the items
    of [l] that the selector matches, in the order of [l], and whose
    other fields are those of [l]. *)
Definition listsBySelector {L I : Type}
    (List_ : labels.Selector -> Prog tools.call (option L * error))
    (extract : tools.call (L * error))
    (Items : L -> list I) (Meta : L -> Payload)
    (Labels : I -> gmap string string) : Prop :=
  forall (selector : labels.Selector) (S : Type) (h : handler tools.call S)
         (s s' : S) (l : L),
    h _ extract s = ((l, None), s') ->
    let matches := fun item => labels.Matches selector (Labels item) in
    exists result : L,
      run h (List_ selector) s = ((Some result, None), s') /\
      Items result = List.filter matches (Items l) /\
      Meta result = Meta l /\
      sublist (Items result) (Items l) /\
      (forall item,
         In item (Items result) <-> In item (Items l) /\ matches item = true) /\
      ((forall item, In item (Items l) -> matches item = true) -> result = l) /\
      ((forall item, In item (Items l) -> matches item = false) ->
         Items result = []).

(** A List function, on a failed extraction: the store's error comes
    back as it is, with no collection, after the one call. *)
Definition listFailsVerbatim {L : Type}
    (List_ : labels.Selector -> Prog tools.call (option L * error))
    (extract : tools.call (L * error)) : Prop :=
  forall (selector : labels.Selector) (S : Type) (h : handler tools.call S)
         (s s' : S) (l : L) (e : goError),
    h _ extract s = ((l, Some e), s') ->
    run h (List_ selector) s = ((None, Some e), s') /\
    trace h (List_ selector) s = [existT _ extract].

(** ** Watch predicates *)

(** The predicate a Watch function builds around the caller's filter:
    on an object of another dynamic type it is the program that logs one
    diagnostic and returns false, in which the filter does not occur; on
    an object of the expected type it is the filter's own program. *)
Definition guardsFilter {T : Type}
    (inj : T -> runtime.Object) (assert : runtime.Object -> option T)
    (format : string)
    (wrap : (T -> Prog glog.call bool) -> runtime.Object -> Prog glog.call bool)
    : Prop :=
  (forall obj typed, assert obj = Some typed <-> obj = inj typed) /\
  forall (filter : T -> Prog glog.call bool) (obj : runtime.Object),
    match assert obj with
    | Some typed => wrap filter obj = filter typed
    | None =>
        wrap filter obj = Call (glog.Errorf format obj) (fun _ => Ret false) /\
        forall log,
          trace glog.record (wrap filter obj) log
            = [existT _ (glog.Errorf format obj)]
    end.

(** The events a filter lets through. *)
Definition accepted {T : Type} (assert : runtime.Object -> option T)
    (f : T -> bool) (ev : watch.Event) : bool :=
  match assert (watch.Object ev) with
  | Some typed => f typed
  | None => false
  end.

(** The events whose object has another dynamic type. *)
Definition foreign {T : Type} (assert : runtime.Object -> option T)
    (ev : watch.Event) : bool :=
  match assert (watch.Object ev) with
  | Some _ => false
  | None => true
  end.

(** The same predicate, run against the log and inside the delivery
    loop: a foreign object costs one diagnostic and the event, nothing
    else; any other event is forwarded exactly when the caller's filter
    accepts its object. *)
Definition dropsForeignEvents {T : Type}
    (inj : T -> runtime.Object) (assert : runtime.Object -> option T)
    (format : string)
    (wrap : (T -> Prog glog.call bool) -> runtime.Object -> Prog glog.call bool)
    : Prop :=
  (forall filter obj log,
     assert obj = None ->
     run glog.record (wrap filter obj) log
       = (false, (log ++ [(format, obj)])%list)) /\
  (forall filter typed log,
     run glog.record (wrap filter (inj typed)) log
       = run glog.record (filter typed) log) /\
  (forall (f : T -> bool) (raw : list watch.Event) log,
     run glog.record (watcher.deliver (wrap (fun typed => mret (f typed))) raw) log
       = (List.filter (accepted assert f) raw,
          (log ++ map (fun ev => (format, watch.Object ev))
                    (List.filter (foreign assert) raw))%list)).

(** A Watch function, on a token that parses: the program is the one
    call that opens the watch on the namespace at the cursor, with the
    predicate built around the caller's filter; its answer is returned
    as it is. *)
Definition opensWatchWith {T : Type}
    (Watch : string -> (T -> Prog glog.call bool) ->
             Prog tools.call (option watch.Interface * error))
    (parse : string -> string -> Z * error) (namespace kind : string)
    (wrap : (T -> Prog glog.call bool) -> runtime.Object -> Prog glog.call bool)
    : Prop :=
  forall (token : string) (filter : T -> Prog glog.call bool) (cursor : Z),
    parse token kind = (cursor, None) ->
    Watch token filter = call (tools.WatchList namespace cursor (wrap filter)).

(** ** Create, read, update, delete *)

Module crud.

Import deployapi imageapi.

(** The operations of the two registries that read or write one record.
    [UpdateImage] is not among them: the image kind has no update. *)
Inductive op : Type :=
| GetDeployment (id : string)
| CreateDeployment (deployment : Deployment.t)
| UpdateDeployment (deployment : Deployment.t)
| DeleteDeployment (id : string)
| GetDeploymentConfig (id : string)
| CreateDeploymentConfig (deploymentConfig : DeploymentConfig.t)
| UpdateDeploymentConfig (deploymentConfig : DeploymentConfig.t)
| DeleteDeploymentConfig (id : string)
| GetImage (id : string)
| CreateImage (image : Image.t)
| DeleteImage (id : string)
| GetImageRepository (id : string)
| CreateImageRepository (repo : ImageRepository.t)
| UpdateImageRepository (repo : ImageRepository.t)
| DeleteImageRepository (id : string).

(** The error an operation surfaces to its caller. *)
Definition perform (c : op) : Prog tools.call error :=
  match c with
  | GetDeployment id => '(_, err) ← deployetcd.GetDeployment id; mret err
  | CreateDeployment d => deployetcd.CreateDeployment d
  | UpdateDeployment d => deployetcd.UpdateDeployment d
  | DeleteDeployment id => deployetcd.DeleteDeployment id
  | GetDeploymentConfig id =>
      '(_, err) ← deployetcd.GetDeploymentConfig id; mret err
  | CreateDeploymentConfig c => deployetcd.CreateDeploymentConfig c
  | UpdateDeploymentConfig c => deployetcd.UpdateDeploymentConfig c
  | DeleteDeploymentConfig id => deployetcd.DeleteDeploymentConfig id
  | GetImage id => '(_, err) ← imageetcd.GetImage id; mret err
  | CreateImage i => imageetcd.CreateImage i
  | DeleteImage id => imageetcd.DeleteImage id
  | GetImageRepository id =>
      '(_, err) ← imageetcd.GetImageRepository id; mret err
  | CreateImageRepository r => imageetcd.CreateImageRepository r
  | UpdateImageRepository r => imageetcd.UpdateImageRepository r
  | DeleteImageRepository id => imageetcd.DeleteImageRepository id
  end.

Definition operation (c : op) : Operation :=
  match c with
  | GetDeployment _ | GetDeploymentConfig _ | GetImage _
  | GetImageRepository _ => OpGet
  | CreateDeployment _ | CreateDeploymentConfig _ | CreateImage _
  | CreateImageRepository _ => OpCreate
  | UpdateDeployment _ | UpdateDeploymentConfig _
  | UpdateImageRepository _ => OpUpdate
  | DeleteDeployment _ | DeleteDeploymentConfig _ | DeleteImage _
  | DeleteImageRepository _ => OpDelete
  end.

Definition kind (c : op) : string :=
  match c with
  | GetDeployment _ | CreateDeployment _ | UpdateDeployment _
  | DeleteDeployment _ => "deployment"
  | GetDeploymentConfig _ | CreateDeploymentConfig _
  | UpdateDeploymentConfig _ | DeleteDeploymentConfig _ => "deploymentConfig"
  | GetImage _ | CreateImage _ | DeleteImage _ => "image"
  | GetImageRepository _ | CreateImageRepository _ | UpdateImageRepository _
  | DeleteImageRepository _ => "imageRepository"
  end.

(** The id of the entity an operation is about. *)
Definition entity (c : op) : string :=
  match c with
  | GetDeployment id | DeleteDeployment id
  | GetDeploymentConfig id | DeleteDeploymentConfig id
  | GetImage id | DeleteImage id
  | GetImageRepository id | DeleteImageRepository id => id
  | CreateDeployment d | UpdateDeployment d => Deployment.ID d
  | CreateDeploymentConfig c | UpdateDeploymentConfig c => DeploymentConfig.ID c
  | CreateImage i => Image.ID i
  | CreateImageRepository r | UpdateImageRepository r => ImageRepository.ID r
  end.

(** The namespace of the kind an operation is about. *)
Definition namespace (c : op) : string :=
  match c with
  | GetDeployment _ | CreateDeployment _ | UpdateDeployment _
  | DeleteDeployment _ => "/deployments"
  | GetDeploymentConfig _ | CreateDeploymentConfig _
  | UpdateDeploymentConfig _ | DeleteDeploymentConfig _ => "/deploymentConfigs"
  | GetImage _ | CreateImage _ | DeleteImage _ => "/images"
  | GetImageRepository _ | CreateImageRepository _ | UpdateImageRepository _
  | DeleteImageRepository _ => "/imageRepositories"
  end.

(** The store primitive behind an operation (spec, section 4.6), on the
    key of the entity. *)
Definition storeCall (c : op) : sigT tools.call :=
  let key := namespace c +:+ "/" +:+ entity c in
  match c with
  | GetDeployment _ =>
      existT _ (tools.ExtractObj key runtime.TDeployment Deployment.zero false)
  | GetDeploymentConfig _ =>
      existT _ (tools.ExtractObj key runtime.TDeploymentConfig
                  DeploymentConfig.zero false)
  | GetImage _ =>
      existT _ (tools.ExtractObj key runtime.TImage Image.zero false)
  | GetImageRepository _ =>
      existT _ (tools.ExtractObj key runtime.TImageRepository
                  ImageRepository.zero false)
  | CreateDeployment d => existT _ (tools.CreateObj key (runtime.Deployment d) 0)
  | CreateDeploymentConfig c =>
      existT _ (tools.CreateObj key (runtime.DeploymentConfig c) 0)
  | CreateImage i => existT _ (tools.CreateObj key (runtime.Image i) 0)
  | CreateImageRepository r =>
      existT _ (tools.CreateObj key (runtime.ImageRepository r) 0)
  | UpdateDeployment d => existT _ (tools.SetObj key (runtime.Deployment d))
  | UpdateDeploymentConfig c =>
      existT _ (tools.SetObj key (runtime.DeploymentConfig c))
  | UpdateImageRepository r =>
      existT _ (tools.SetObj key (runtime.ImageRepository r))
  | DeleteDeployment _ | DeleteDeploymentConfig _ | DeleteImage _
  | DeleteImageRepository _ => existT _ (tools.Delete key false)
  end.

End crud.

(** An error that carries the three tags. *)
Definition taggedWith (operation kind id : string) (err : error) : Prop :=
  exists reason, err = Some (DomainError reason operation kind id).

(** * The registries as one table *)

(** The two packages write every function out once per resource kind.
    This module indexes those functions by the static type of the
    resource, so that a property of all of them has one statement. *)
Module registry.

Import runtime.

Definition kindOf (T : apiType) : string :=
  match T with
  | TDeployment => "deployment"
  | TDeploymentConfig => "deploymentConfig"
  | TImage => "image"
  | TImageRepository => "imageRepository"
  end.

Definition namespaceOf (T : apiType) : string :=
  match T with
  | TDeployment => "/deployments"
  | TDeploymentConfig => "/deploymentConfigs"
  | TImage => "/images"
  | TImageRepository => "/imageRepositories"
  end.

Definition idOf (T : apiType) : objOf T -> string :=
  match T return objOf T -> string with
  | TDeployment => deployapi.Deployment.ID
  | TDeploymentConfig => deployapi.DeploymentConfig.ID
  | TImage => imageapi.Image.ID
  | TImageRepository => imageapi.ImageRepository.ID
  end.

Definition labelsOf (T : apiType) : objOf T -> gmap string string :=
  match T return objOf T -> gmap string string with
  | TDeployment => deployapi.Deployment.Labels
  | TDeploymentConfig => deployapi.DeploymentConfig.Labels
  | TImage => imageapi.Image.Labels
  | TImageRepository => imageapi.ImageRepository.Labels
  end.

Definition itemsOf (T : apiType) : listOf T -> list (objOf T) :=
  match T return listOf T -> list (objOf T) with
  | TDeployment => deployapi.DeploymentList.Items
  | TDeploymentConfig => deployapi.DeploymentConfigList.Items
  | TImage => imageapi.ImageList.Items
  | TImageRepository => imageapi.ImageRepositoryList.Items
  end.

Definition setItemsOf (T : apiType) : listOf T -> list (objOf T) -> listOf T :=
  match T return listOf T -> list (objOf T) -> listOf T with
  | TDeployment => deployapi.DeploymentList.setItems
  | TDeploymentConfig => deployapi.DeploymentConfigList.setItems
  | TImage => imageapi.ImageList.setItems
  | TImageRepository => imageapi.ImageRepositoryList.setItems
  end.

(** The conversion of a typed value to [runtime.Object]. *)
Definition toObject (T : apiType) : objOf T -> Object :=
  match T return objOf T -> Object with
  | TDeployment => Deployment
  | TDeploymentConfig => DeploymentConfig
  | TImage => Image
  | TImageRepository => ImageRepository
  end.

Definition keyOf (T : apiType) (id : string) : string :=
  match T with
  | TDeployment => deployetcd.makeDeploymentKey id
  | TDeploymentConfig => deployetcd.makeDeploymentConfigKey id
  | TImage => imageetcd.makeImageKey id
  | TImageRepository => imageetcd.makeImageRepositoryKey id
  end.

Definition List (T : apiType)
    : labels.Selector -> Prog tools.call (option (listOf T) * error) :=
  match T return labels.Selector -> Prog tools.call (option (listOf T) * error)
  with
  | TDeployment => deployetcd.ListDeployments
  | TDeploymentConfig => deployetcd.ListDeploymentConfigs
  | TImage => imageetcd.ListImages
  | TImageRepository => imageetcd.ListImageRepositories
  end.

Definition Get (T : apiType)
    : string -> Prog tools.call (option (objOf T) * error) :=
  match T return string -> Prog tools.call (option (objOf T) * error) with
  | TDeployment => deployetcd.GetDeployment
  | TDeploymentConfig => deployetcd.GetDeploymentConfig
  | TImage => imageetcd.GetImage
  | TImageRepository => imageetcd.GetImageRepository
  end.

Definition Create (T : apiType) : objOf T -> Prog tools.call error :=
  match T return objOf T -> Prog tools.call error with
  | TDeployment => deployetcd.CreateDeployment
  | TDeploymentConfig => deployetcd.CreateDeploymentConfig
  | TImage => imageetcd.CreateImage
  | TImageRepository => imageetcd.CreateImageRepository
  end.

Definition Update (T : apiType) : objOf T -> Prog tools.call error :=
  match T return objOf T -> Prog tools.call error with
  | TDeployment => deployetcd.UpdateDeployment
  | TDeploymentConfig => deployetcd.UpdateDeploymentConfig
  | TImage => imageetcd.UpdateImage
  | TImageRepository => imageetcd.UpdateImageRepository
  end.

Definition Delete (T : apiType) : string -> Prog tools.call error :=
  match T with
  | TDeployment => deployetcd.DeleteDeployment
  | TDeploymentConfig => deployetcd.DeleteDeploymentConfig
  | TImage => imageetcd.DeleteImage
  | TImageRepository => imageetcd.DeleteImageRepository
  end.

(** The zero value a Get function declares and decodes into. *)
Definition zeroOf (T : apiType) : objOf T :=
  match T with
  | TDeployment => deployapi.Deployment.zero
  | TDeploymentConfig => deployapi.DeploymentConfig.zero
  | TImage => imageapi.Image.zero
  | TImageRepository => imageapi.ImageRepository.zero
  end.

(** The empty list a List function declares and extracts into. *)
Definition zeroListOf (T : apiType) : listOf T :=
  match T with
  | TDeployment => deployapi.DeploymentList.zero
  | TDeploymentConfig => deployapi.DeploymentConfigList.zero
  | TImage => imageapi.ImageList.zero
  | TImageRepository => imageapi.ImageRepositoryList.zero
  end.

(** The kinds that have a Watch function, with the predicate each one
    builds and the function itself. *)
Inductive watched : apiType -> Type :=
| WDeployment : watched TDeployment
| WDeploymentConfig : watched TDeploymentConfig
| WImageRepository : watched TImageRepository.

Definition predicateOf {T : apiType} (w : watched T)
    : (objOf T -> Prog glog.call bool) -> Object -> Prog glog.call bool :=
  match w in watched T
        return (objOf T -> Prog glog.call bool) -> Object -> Prog glog.call bool
  with
  | WDeployment => deployetcd.WatchDeployments_func1
  | WDeploymentConfig => deployetcd.WatchDeploymentConfigs_func1
  | WImageRepository => imageetcd.WatchImageRepositories_func1
  end.

Definition Watch {T : apiType} (w : watched T)
    : string -> (objOf T -> Prog glog.call bool) ->
      Prog tools.call (option watch.Interface * error) :=
  match w in watched T
        return string -> (objOf T -> Prog glog.call bool) ->
               Prog tools.call (option watch.Interface * error)
  with
  | WDeployment => deployetcd.WatchDeployments
  | WDeploymentConfig => deployetcd.WatchDeploymentConfigs
  | WImageRepository => imageetcd.WatchImageRepositories
  end.

(** The cursor a Watch function opens the store's watch at, for a token
    it accepts. *)
Definition cursorOf (token : string) : option Z :=
  if String.eqb token "" then Some 0
  else
    match versionOf token with
    | Some N => Some (if String.eqb token "0" then 0 else wrap64 (N + 1))
    | None => None
    end.

End registry.

(** * A reference store *)

Module memstore.

Import runtime.

(** Decoding of a stored object into the static type asked for. *)
Definition decode (T : apiType) (obj : Object) : option (objOf T) :=
  match T return option (objOf T) with
  | TDeployment => match obj with Deployment d => Some d | _ => None end
  | TDeploymentConfig =>
      match obj with DeploymentConfig c => Some c | _ => None end
  | TImage => match obj with Image i => Some i | _ => None end
  | TImageRepository =>
      match obj with ImageRepository r => Some r | _ => None end
  end.

Fixpoint decodeAll (T : apiType) (objs : list Object)
    : option (list (objOf T)) :=
  match objs with
  | [] => Some []
  | obj :: rest =>
      match decode T obj, decodeAll T rest with
      | Some o, Some os => Some (o :: os)
      | _, _ => None
      end
  end.

Definition decodeFailed : goError := StoreError (OtherFailure "decode").

(** The records under the directory [dir]. *)
Definition under (dir : string) (node : string * Object) : bool :=
  String.prefix (dir +:+ "/") (fst node).

(** Modelled from the spec: the backing store of section 6, an external
    service that is not part of the sources, reduced to a finite map
    from keys to records.  [extractAll] returns the records under a
    namespace in the map's enumeration order, [extractOne] reports a
    missing key as such, [createOnly] fails if the key exists,
    [setOverwrite] always writes, [delete] removes one record and
    reports a missing key, [watch] opens a subscription and changes
    nothing.  A record that does not decode into the type asked for is
    a failure of another kind. *)
Definition store : handler tools.call (gmap string Object) :=
  fun X e =>
    match e in tools.call X
          return gmap string Object -> X * gmap string Object with
    | tools.ExtractToList key T listObj =>
        fun m =>
          match decodeAll T (map snd (List.filter (under key) (map_to_list m)))
          with
          | Some items => ((registry.setItemsOf T listObj items, None), m)
          | None => ((listObj, Some decodeFailed), m)
          end
    | tools.ExtractObj key T objPtr ignoreNotFound =>
        fun m =>
          match m !! key with
          | None =>
              ((objPtr,
                if ignoreNotFound then None else Some (StoreError KeyAbsent)),
               m)
          | Some obj =>
              match decode T obj with
              | Some o => ((o, None), m)
              | None => ((objPtr, Some decodeFailed), m)
              end
          end
    | tools.CreateObj key obj _ =>
        fun m =>
          match m !! key with
          | Some _ => (Some (StoreError KeyPresent), m)
          | None => (None, <[key := obj]> m)
          end
    | tools.SetObj key obj => fun m => (None, <[key := obj]> m)
    | tools.Delete key _ =>
        fun m =>
          match m !! key with
          | Some _ => (None, delete key m)
          | None => (Some (StoreError KeyAbsent), m)
          end
    | tools.WatchList _ _ _ =>
        fun m => ((Some (watch.subscription 0), None), m)
    end.

(** The records the store enumerates under the namespace of a kind. *)
Definition nodes (T : apiType) (m : gmap string Object)
    : list (string * Object) :=
  List.filter (under (registry.namespaceOf T)) (map_to_list m).

(** Every record sits under the key of its own kind and id: what a
    store holds when it was written through the registries only. *)
Definition wellKeyed (m : gmap string Object) : Prop :=
  forall key obj,
    m !! key = Some obj ->
    exists T (o : objOf T),
      obj = registry.toObject T o /\
      key = registry.keyOf T (registry.idOf T o).

(** The entity the store holds for an id of a kind. *)
Definition holds (m : gmap string Object) (T : apiType) (o : objOf T)
    : Prop :=
  m !! registry.keyOf T (registry.idOf T o) = Some (registry.toObject T o).

End memstore.

(** * Properties *)

(** ** The parser against decimal numerals *)

Section ParseUint.

Lemma isDigit_bounds c : isDigit c = true -> 48 <= strconv.byteOf c <= 57.
Proof. unfold isDigit. rewrite andb_true_iff, !Z.leb_le. tauto. Qed.

Lemma digit_of_digit c :
  isDigit c = true -> strconv.digit c = Some (strconv.byteOf c - 48).
Proof. unfold strconv.digit, isDigit. cbv zeta. intros ->. reflexivity. Qed.

Lemma digit_of_other c d :
  isDigit c = false -> strconv.digit c = Some d -> 10 <= d.
Proof.
  unfold strconv.digit, isDigit. cbv zeta. intros ->.
  destruct (_ && _) eqn:Hletter; [|discriminate].
  apply andb_true_iff in Hletter as [Hlo _]. apply Z.leb_le in Hlo.
  intros [= <-]. lia.
Qed.

Lemma digitsValue_ge s : forall acc v,
  0 <= acc -> digitsValue s acc = Some v -> acc <= v.
Proof.
  induction s as [|c rest IH]; simpl; intros acc v Hacc.
  - intros [= <-]. lia.
  - destruct (isDigit c) eqn:Hc; [|discriminate].
    apply isDigit_bounds in Hc. intros Hv. apply IH in Hv; lia.
Qed.

(** The loop accepts exactly the digit strings whose value fits 64
    bits, and then returns that value. *)
Lemma parseLoop_digitsValue s : forall n,
  0 <= n <= maxUint64 ->
  match digitsValue s n with
  | Some v =>
      if v <=? maxUint64 then strconv.parseLoop s n = inl v
      else strconv.parseLoop s n = inr ErrRange
  | None => exists e, strconv.parseLoop s n = inr e
  end.
Proof.
  induction s as [|c rest IH]; simpl; intros n Hn.
  - destruct (Z.leb_spec n maxUint64); [reflexivity | lia].
  - destruct (isDigit c) eqn:Hc.
    + rewrite (digit_of_digit _ Hc). apply isDigit_bounds in Hc.
      set (d := strconv.byteOf c - 48) in *.
      assert (Hd : 0 <= d <= 9) by (unfold d; lia).
      destruct (Z.leb_spec 10 d) as [|_]; [lia|].
      unfold strconv.cutoff, maxUint64, wrap64 in *.
      change (2 ^ 64) with 18446744073709551616 in *.
      change ((18446744073709551616 - 1) / 10 + 1)
        with 1844674407370955162 in *.
      destruct (Z.leb_spec 1844674407370955162 n) as [Hcut|Hcut].
      * destruct (digitsValue rest (n * 10 + d)) as [v|] eqn:Hv; [|eauto].
        apply digitsValue_ge in Hv; [|lia].
        destruct (Z.leb_spec v (18446744073709551616 - 1)); [lia | reflexivity].
      * rewrite (Z.mod_small (n * 10)) by lia.
        destruct (Z.leb_spec (n * 10 + d) (18446744073709551616 - 1)) as [Hfit|Hfit].
        -- rewrite (Z.mod_small (n * 10 + d)) by lia.
           destruct (Z.ltb_spec (n * 10 + d) (n * 10)); [lia|].
           destruct (Z.ltb_spec (18446744073709551616 - 1) (n * 10 + d)); [lia|].
           simpl. apply IH. lia.
        -- assert (Hw : (n * 10 + d) mod 18446744073709551616
                        = n * 10 + d - 18446744073709551616).
           { symmetry. apply (Z.mod_unique _ _ 1); lia. }
           rewrite Hw.
           destruct (Z.ltb_spec (n * 10 + d - 18446744073709551616) (n * 10));
             [|lia].
           simpl.
           destruct (digitsValue rest (n * 10 + d)) as [v|] eqn:Hv; [|eauto].
           apply digitsValue_ge in Hv; [|lia].
           destruct (Z.leb_spec v (18446744073709551616 - 1));
             [lia | reflexivity].
    + destruct (strconv.digit c) as [d|] eqn:Hdigit; [|eauto].
      apply (digit_of_other _ _ Hc) in Hdigit.
      destruct (Z.leb_spec 10 d); [eauto | lia].
Qed.

Lemma decimal_nonempty s N : decimal s = Some N -> s <> "".
Proof. destruct s; [discriminate | congruence]. Qed.

Lemma decimal_digitsValue s : s <> "" -> decimal s = digitsValue s 0.
Proof. destruct s; [congruence | reflexivity]. Qed.

Lemma ParseUint_value s N :
  decimal s = Some N -> N <= maxUint64 -> strconv.ParseUint s = (N, None).
Proof.
  intros Hs HN. pose proof (decimal_nonempty _ _ Hs) as Hne.
  rewrite decimal_digitsValue in Hs by assumption.
  unfold strconv.ParseUint.
  destruct (String.eqb_spec s ""); [contradiction|].
  pose proof (parseLoop_digitsValue s 0) as Hloop.
  rewrite Hs in Hloop.
  destruct (Z.leb_spec N maxUint64); [|lia].
  rewrite Hloop; [reflexivity | unfold maxUint64; lia].
Qed.

Lemma ParseUint_range s N :
  decimal s = Some N -> maxUint64 < N ->
  strconv.ParseUint s = (maxUint64, Some (NumError "ParseUint" s ErrRange)).
Proof.
  intros Hs HN. pose proof (decimal_nonempty _ _ Hs) as Hne.
  rewrite decimal_digitsValue in Hs by assumption.
  unfold strconv.ParseUint.
  destruct (String.eqb_spec s ""); [contradiction|].
  pose proof (parseLoop_digitsValue s 0) as Hloop.
  rewrite Hs in Hloop.
  destruct (Z.leb_spec N maxUint64); [lia|].
  rewrite Hloop; [reflexivity | unfold maxUint64; lia].
Qed.

Lemma ParseUint_not_decimal s :
  decimal s = None -> exists v e, strconv.ParseUint s = (v, Some e).
Proof.
  intros Hs. unfold strconv.ParseUint.
  destruct (String.eqb_spec s ""); [eauto|].
  rewrite decimal_digitsValue in Hs by assumption.
  pose proof (parseLoop_digitsValue s 0) as Hloop.
  rewrite Hs in Hloop. destruct Hloop as [e ->]; [unfold maxUint64; lia|].
  destruct e; eauto.
Qed.

End ParseUint.

(** ** The resource-version cursor *)

Section Cursor.

Lemma parse_image_deploy :
  imageetcd.parseWatchResourceVersion = deployetcd.parseWatchResourceVersion.
Proof. reflexivity. Qed.

Lemma parse_other token kind :
  token <> "" -> token <> "0" ->
  deployetcd.parseWatchResourceVersion token kind =
    match strconv.ParseUint token with
    | (_, Some e) =>
        (0, etcderr.InterpretResourceVersionError (Some e) kind token)
    | (version, None) => (wrap64 (version + 1), None)
    end.
Proof.
  intros Hempty Hzero. unfold deployetcd.parseWatchResourceVersion.
  destruct (String.eqb_spec token ""); [contradiction|].
  destruct (String.eqb_spec token "0"); [contradiction|].
  simpl. destruct (strconv.ParseUint token) as [version [e|]]; reflexivity.
Qed.

Lemma parse_successor token kind N :
  decimal token = Some N -> token <> "0" -> N <= maxUint64 ->
  deployetcd.parseWatchResourceVersion token kind = (wrap64 (N + 1), None).
Proof.
  intros Hdec Hzero HN.
  rewrite parse_other by eauto using decimal_nonempty.
  rewrite (ParseUint_value _ _ Hdec HN). reflexivity.
Qed.

Lemma parse_not_decimal token kind :
  token <> "" -> decimal token = None ->
  deployetcd.parseWatchResourceVersion token kind =
    (0, Some (InvalidResourceVersion kind token)).
Proof.
  intros Hempty Hdec.
  assert (token <> "0") by (intros ->; discriminate).
  rewrite parse_other by assumption.
  destruct (ParseUint_not_decimal _ Hdec) as (v & e & ->). reflexivity.
Qed.

Lemma parse_too_large token kind N :
  decimal token = Some N -> maxUint64 < N ->
  deployetcd.parseWatchResourceVersion token kind =
    (0, Some (InvalidResourceVersion kind token)).
Proof.
  intros Hdec HN.
  assert (token <> "0").
  { intros ->. vm_compute in Hdec. injection Hdec as <-.
    unfold maxUint64 in HN. lia. }
  rewrite parse_other by eauto using decimal_nonempty.
  rewrite (ParseUint_range _ _ Hdec HN). reflexivity.
Qed.

Lemma cursor_is_uint64 token kind :
  is_uint64 (fst (deployetcd.parseWatchResourceVersion token kind)).
Proof.
  unfold deployetcd.parseWatchResourceVersion, is_uint64, maxUint64, wrap64.
  destruct (_ || _); [simpl; lia|].
  destruct (strconv.ParseUint token) as [version [e|]]; simpl; [lia|].
  pose proof (Z.mod_pos_bound (version + 1) (2 ^ 64) eq_refl). lia.
Qed.

Lemma deploy_cursorContract : cursorContract deployetcd.parseWatchResourceVersion.
Proof.
  intros kind token. repeat split.
  - intros [-> | ->]; reflexivity.
  - intros N Hdec Hzero HN.
    rewrite (parse_successor _ _ N) by (assumption || lia).
    pose proof (digitsValue_ge token 0 N) as Hge.
    rewrite <- decimal_digitsValue in Hge by eauto using decimal_nonempty.
    specialize (Hge ltac:(lia) Hdec).
    unfold wrap64, maxUint64 in *.
    change (2 ^ 64) with 18446744073709551616 in *.
    rewrite Z.mod_small; [reflexivity | lia].
  - apply parse_not_decimal.
  - apply parse_too_large.
Qed.

End Cursor.

Section CursorAtTheEdge.

Lemma parse_rejects token kind :
  token <> "" -> versionOf token = None ->
  deployetcd.parseWatchResourceVersion token kind =
    (0, Some (InvalidResourceVersion kind token)).
Proof.
  unfold versionOf. intros Hempty Hversion.
  destruct (decimal token) as [N|] eqn:Hdec.
  - destruct (Z.leb_spec N maxUint64); [discriminate|].
    eauto using parse_too_large.
  - eauto using parse_not_decimal.
Qed.

End CursorAtTheEdge.

(** C1 (amended): for every kind string, both copies of
    [parseWatchResourceVersion] return cursor 0 and no error on the
    tokens [""] and ["0"]; return cursor [N + 1] and no error on any
    other string of decimal digits that denotes [N] with [N + 1] still a
    [uint64]; and fail with [InvalidResourceVersion] carrying the kind
    and the token when the token is non-empty and is not a string of
    decimal digits, or denotes a number beyond 64 bits.  In particular
    [""] and ["0"] give [(0, nil)], ["5"] gives [(6, nil)] and ["abc"]
    fails referencing ["abc"]. *)
Theorem parseWatchResourceVersion_cursor :
  cursorContract deployetcd.parseWatchResourceVersion /\
  cursorContract imageetcd.parseWatchResourceVersion /\
  forall kind : string,
    deployetcd.parseWatchResourceVersion "" kind = (0, None) /\
    deployetcd.parseWatchResourceVersion "0" kind = (0, None) /\
    deployetcd.parseWatchResourceVersion "5" kind = (6, None) /\
    deployetcd.parseWatchResourceVersion "abc" kind
      = (0, Some (InvalidResourceVersion kind "abc")) /\
    imageetcd.parseWatchResourceVersion "" kind = (0, None) /\
    imageetcd.parseWatchResourceVersion "0" kind = (0, None) /\
    imageetcd.parseWatchResourceVersion "5" kind = (6, None) /\
    imageetcd.parseWatchResourceVersion "abc" kind
      = (0, Some (InvalidResourceVersion kind "abc")).
Proof.
  split; [|split].
  - exact deploy_cursorContract.
  - rewrite parse_image_deploy. exact deploy_cursorContract.
  - intros kind. repeat split.
Qed.

Lemma parseWatchResourceVersion_cursor_witness :
  deployetcd.parseWatchResourceVersion "41" "deployment" = (42, None) /\
  imageetcd.parseWatchResourceVersion "4x1" "imageRepository"
    = (0, Some (InvalidResourceVersion "imageRepository" "4x1")).
Proof.
  destruct parseWatchResourceVersion_cursor as (Hdeploy & Himage & _).
  split.
  - destruct (Hdeploy "deployment" "41") as (_ & Hsucc & _).
    apply (Hsucc 41); [reflexivity | discriminate | vm_compute; discriminate].
  - destruct (Himage "imageRepository" "4x1") as (_ & _ & Hbad & _).
    apply Hbad; [discriminate | reflexivity].
Defined.

(** C1 as stated fails: [maxToken] is a valid non-negative base-10
    integer [N], and the cursor returned for it is not [N + 1]; the next
    numeral is a valid non-negative integer too, and is rejected. *)
Lemma parseWatchResourceVersion_not_successor_at_maxToken :
  decimal maxToken = Some maxUint64 /\
  deployetcd.parseWatchResourceVersion maxToken "deployment"
    <> (maxUint64 + 1, None) /\
  imageetcd.parseWatchResourceVersion maxToken "image"
    <> (maxUint64 + 1, None) /\
  decimal "18446744073709551616" = Some (maxUint64 + 1) /\
  deployetcd.parseWatchResourceVersion "18446744073709551616" "deployment"
    <> (maxUint64 + 1 + 1, None).
Proof.
  repeat split; try reflexivity; vm_compute; discriminate.
Qed.

(** C9: on the token of the largest unsigned 64-bit integer both copies
    of [parseWatchResourceVersion] succeed with cursor 0: the token
    parses to [maxUint64] and the successor is taken modulo [2^64].  The
    result is that of the empty token, so a watch opened with it is the
    watch with no lower bound. *)
Theorem parseWatchResourceVersion_maxToken_wraps :
  forall kind : string,
    maxToken = "18446744073709551615" /\
    strconv.ParseUint maxToken = (2 ^ 64 - 1, None) /\
    wrap64 (2 ^ 64 - 1 + 1) = 0 /\
    deployetcd.parseWatchResourceVersion maxToken kind = (0, None) /\
    imageetcd.parseWatchResourceVersion maxToken kind = (0, None) /\
    deployetcd.parseWatchResourceVersion maxToken kind
      = deployetcd.parseWatchResourceVersion "" kind /\
    imageetcd.parseWatchResourceVersion maxToken kind
      = imageetcd.parseWatchResourceVersion "" kind /\
    (forall filter,
       deployetcd.WatchDeployments maxToken filter
         = deployetcd.WatchDeployments "" filter) /\
    (forall filter,
       deployetcd.WatchDeploymentConfigs maxToken filter
         = deployetcd.WatchDeploymentConfigs "" filter) /\
    (forall filter,
       imageetcd.WatchImageRepositories maxToken filter
         = imageetcd.WatchImageRepositories "" filter).
Proof.
  intros kind. repeat split; try intros filter; vm_compute; reflexivity.
Qed.

(** ** Keys *)

Section Keys.

Lemma append_inj_r (prefix a b : string) :
  prefix +:+ a = prefix +:+ b -> a = b.
Proof.
  induction prefix as [|c prefix IH]; simpl; [tauto|].
  intros [= H]. auto.
Qed.

End Keys.

(** C8: for every kind and every id the store key is the kind's
    namespace prefix, then ["/"], then the id; and within one kind two
    distinct ids have distinct keys. *)
Theorem keys_are_prefixed_and_injective :
  forall id id' : string,
    (deployetcd.makeDeploymentKey id = "/deployments" +:+ "/" +:+ id /\
     deployetcd.makeDeploymentConfigKey id
       = "/deploymentConfigs" +:+ "/" +:+ id /\
     imageetcd.makeImageKey id = "/images" +:+ "/" +:+ id /\
     imageetcd.makeImageRepositoryKey id
       = "/imageRepositories" +:+ "/" +:+ id) /\
    (id <> id' ->
     deployetcd.makeDeploymentKey id <> deployetcd.makeDeploymentKey id' /\
     deployetcd.makeDeploymentConfigKey id
       <> deployetcd.makeDeploymentConfigKey id' /\
     imageetcd.makeImageKey id <> imageetcd.makeImageKey id' /\
     imageetcd.makeImageRepositoryKey id
       <> imageetcd.makeImageRepositoryKey id').
Proof.
  intros id id'. split; [repeat split|].
  intros Hne. repeat split; intros Heq; apply Hne;
    exact (append_inj_r _ _ _ Heq).
Qed.

Lemma keys_are_prefixed_and_injective_witness :
  deployetcd.makeDeploymentKey "a" <> deployetcd.makeDeploymentKey "ab" /\
  imageetcd.makeImageRepositoryKey "a" = "/imageRepositories/a".
Proof.
  destruct (keys_are_prefixed_and_injective "a" "ab") as [Hshape Hinj].
  split.
  - apply Hinj. discriminate.
  - apply Hshape.
Defined.

(** ** The kind without update *)

(** C2: for every image, [UpdateImage] is the program that returns the
    error [errors.New("not supported")] at once: whatever the store
    holds and however it would answer, the call fails with that error,
    issues no store call and leaves the store as it was. *)
Theorem UpdateImage_is_unsupported :
  forall image : imageapi.Image.t,
    imageetcd.UpdateImage image = Ret (errors.New "not supported") /\
    forall (S : Type) (h : handler tools.call S) (s : S),
      run h (imageetcd.UpdateImage image) s
        = (Some (errorString "not supported"), s) /\
      trace h (imageetcd.UpdateImage image) s = [].
Proof. intros image. split; [reflexivity|]. intros S h s. split; reflexivity. Qed.

(** ** Watch and the resource version *)

Section WatchRejects.

Ltac reject_with Hempty Hversion :=
  split; [|intros S h s];
  rewrite ?parse_image_deploy, (parse_rejects _ _ Hempty Hversion);
  repeat split.

Lemma WatchDeployments_rejects :
  rejectsInvalidVersion deployetcd.WatchDeployments "deployment".
Proof.
  intros token filter Hempty Hversion.
  unfold deployetcd.WatchDeployments. reject_with Hempty Hversion.
Qed.

Lemma WatchDeploymentConfigs_rejects :
  rejectsInvalidVersion deployetcd.WatchDeploymentConfigs "deploymentConfig".
Proof.
  intros token filter Hempty Hversion.
  unfold deployetcd.WatchDeploymentConfigs. reject_with Hempty Hversion.
Qed.

Lemma WatchImageRepositories_rejects :
  rejectsInvalidVersion imageetcd.WatchImageRepositories "imageRepository".
Proof.
  intros token filter Hempty Hversion.
  unfold imageetcd.WatchImageRepositories. reject_with Hempty Hversion.
Qed.

Lemma versionOf_not_decimal token : decimal token = None -> versionOf token = None.
Proof. unfold versionOf. intros ->. reflexivity. Qed.

End WatchRejects.

(** C7: a resourceVersion token that is present and does not denote a
    version (it is not a non-empty string of decimal digits, or its
    value does not fit 64 bits) makes each Watch function return the
    [InvalidResourceVersion] error for its kind and the token, with a
    nil stream, as a program that makes no call: no subscription is
    opened on the store. *)
Theorem Watch_rejects_invalid_version :
  rejectsInvalidVersion deployetcd.WatchDeployments "deployment" /\
  rejectsInvalidVersion deployetcd.WatchDeploymentConfigs "deploymentConfig" /\
  rejectsInvalidVersion imageetcd.WatchImageRepositories "imageRepository" /\
  forall token, decimal token = None -> versionOf token = None.
Proof.
  auto using WatchDeployments_rejects, WatchDeploymentConfigs_rejects,
    WatchImageRepositories_rejects, versionOf_not_decimal.
Qed.

Lemma Watch_rejects_invalid_version_witness :
  run (fake.store fake.noLists fake.noObjs None)
      (deployetcd.WatchDeployments "abc" (fun _ => mret true)) 0%nat
    = ((None, Some (InvalidResourceVersion "deployment" "abc")), 0%nat).
Proof.
  destruct Watch_rejects_invalid_version as (Hwatch & _).
  destruct (Hwatch "abc" (fun _ => mret true)) as [_ Hrun];
    [discriminate | reflexivity |].
  apply Hrun.
Defined.

(** ** Running programs *)

Section Run.

Context {E : Type -> Type} {S : Type} (h : handler E S).

Lemma run_bind {A B} (p : Prog E A) (f : A -> Prog E B) (s : S) :
  run h (bind p f) s = let (a, s') := run h p s in run h (f a) s'.
Proof.
  revert s. induction p as [a | X e k IH]; intros s; simpl; [reflexivity|].
  destruct (h X e s) as [x s']. apply IH.
Qed.

End Run.

(** ** Listing *)

Section Listing.

Context {L I : Type}.
Variable List_ : labels.Selector -> Prog tools.call (option L * error).
Variable extract : tools.call (L * error).
Variable Items : L -> list I.
Variable setItems : L -> list I -> L.
Variable Labels : I -> gmap string string.

Hypothesis List_run :
  forall selector (S : Type) (h : handler tools.call S) (s : S),
    run h (List_ selector) s =
      match h _ extract s with
      | ((_, Some e), s') => ((None, Some e), s')
      | ((l, None), s') =>
          ((Some (setItems l (selectLoop Labels selector (Items l))), None), s')
      end.

Hypothesis List_trace :
  forall selector (S : Type) (h : handler tools.call S) (s : S),
    trace h (List_ selector) s = [existT _ extract].

Hypothesis setItems_Items : forall l, setItems l (Items l) = l.

Variable Meta : L -> Payload.

Hypothesis Items_setItems : forall l items, Items (setItems l items) = items.

Hypothesis Meta_setItems : forall l items, Meta (setItems l items) = Meta l.

Lemma loop_from (keep : I -> bool) (items acc : list I) :
  fold_left
    (fun filtered item => if keep item then (filtered ++ [item])%list else filtered)
    items acc
  = (acc ++ List.filter keep items)%list.
Proof.
  revert acc. induction items as [|item items IH]; intros acc; simpl.
  - symmetry. apply app_nil_r.
  - rewrite IH. destruct (keep item); [|reflexivity].
    rewrite <- app_assoc. reflexivity.
Qed.

Lemma loop_filter selector items :
  selectLoop Labels selector items
    = List.filter (fun item => labels.Matches selector (Labels item)) items.
Proof. unfold selectLoop. rewrite loop_from. reflexivity. Qed.

Lemma filter_sublist (keep : I -> bool) items :
  sublist (List.filter keep items) items.
Proof.
  induction items as [|item items IH]; simpl; [constructor|].
  destruct (keep item); constructor; exact IH.
Qed.

Lemma filter_all (keep : I -> bool) items :
  (forall item, In item items -> keep item = true) ->
  List.filter keep items = items.
Proof.
  induction items as [|item items IH]; simpl; intros Hall; [reflexivity|].
  rewrite Hall by auto. f_equal. auto.
Qed.

Lemma filter_none (keep : I -> bool) items :
  (forall item, In item items -> keep item = false) ->
  List.filter keep items = [].
Proof.
  induction items as [|item items IH]; simpl; intros Hnone; [reflexivity|].
  rewrite Hnone by auto. auto.
Qed.

Lemma listing_filters : listsBySelector List_ extract Items Meta Labels.
Proof.
  intros selector S h s s' l Hextract matches.
  exists (setItems l (List.filter matches (Items l))).
  rewrite Items_setItems, Meta_setItems.
  split; [rewrite List_run, Hextract, loop_filter; reflexivity|].
  split; [reflexivity|]. split; [reflexivity|].
  split; [apply filter_sublist|].
  split; [intros item; apply filter_In|].
  split; intros Hall.
  - rewrite filter_all by assumption. apply setItems_Items.
  - apply filter_none. assumption.
Qed.

Lemma listing_fails : listFailsVerbatim List_ extract.
Proof.
  intros selector S h s s' l e Hextract.
  rewrite List_run, Hextract, List_trace. split; reflexivity.
Qed.

End Listing.

Section ListFunctions.

Import deployapi imageapi.

Ltac list_run :=
  intros selector S h s; cbn;
  destruct (h _ _ s) as [[l [e|]] s']; reflexivity.

Ltac list_trace :=
  intros selector S h s; cbn;
  destruct (h _ _ s) as [[l [e|]] s']; reflexivity.

Lemma ListDeployments_run selector (S : Type) (h : handler tools.call S) s :
  run h (deployetcd.ListDeployments selector) s =
    match h _ (tools.ExtractToList "/deployments" runtime.TDeployment
                 DeploymentList.zero) s with
    | ((_, Some e), s') => ((None, Some e), s')
    | ((l, None), s') =>
        ((Some (DeploymentList.setItems l
                  (selectLoop Deployment.Labels selector (DeploymentList.Items l))),
          None), s')
    end.
Proof. revert selector S h s. list_run. Qed.

Lemma ListDeploymentConfigs_run selector (S : Type) (h : handler tools.call S) s :
  run h (deployetcd.ListDeploymentConfigs selector) s =
    match h _ (tools.ExtractToList "/deploymentConfigs" runtime.TDeploymentConfig
                 DeploymentConfigList.zero) s with
    | ((_, Some e), s') => ((None, Some e), s')
    | ((l, None), s') =>
        ((Some (DeploymentConfigList.setItems l
                  (selectLoop DeploymentConfig.Labels selector
                     (DeploymentConfigList.Items l))),
          None), s')
    end.
Proof. revert selector S h s. list_run. Qed.

Lemma ListImages_run selector (S : Type) (h : handler tools.call S) s :
  run h (imageetcd.ListImages selector) s =
    match h _ (tools.ExtractToList "/images" runtime.TImage ImageList.zero) s with
    | ((_, Some e), s') => ((None, Some e), s')
    | ((l, None), s') =>
        ((Some (ImageList.setItems l
                  (selectLoop Image.Labels selector (ImageList.Items l))),
          None), s')
    end.
Proof. revert selector S h s. list_run. Qed.

Lemma ListImageRepositories_run selector (S : Type) (h : handler tools.call S) s :
  run h (imageetcd.ListImageRepositories selector) s =
    match h _ (tools.ExtractToList "/imageRepositories" runtime.TImageRepository
                 ImageRepositoryList.zero) s with
    | ((_, Some e), s') => ((None, Some e), s')
    | ((l, None), s') =>
        ((Some (ImageRepositoryList.setItems l
                  (selectLoop ImageRepository.Labels selector
                     (ImageRepositoryList.Items l))),
          None), s')
    end.
Proof. revert selector S h s. list_run. Qed.

Lemma ListDeployments_trace selector (S : Type) (h : handler tools.call S) s :
  trace h (deployetcd.ListDeployments selector) s
    = [existT _ (tools.ExtractToList "/deployments" runtime.TDeployment
                   DeploymentList.zero)].
Proof. revert selector S h s. list_trace. Qed.

Lemma ListDeploymentConfigs_trace selector (S : Type) (h : handler tools.call S) s :
  trace h (deployetcd.ListDeploymentConfigs selector) s
    = [existT _ (tools.ExtractToList "/deploymentConfigs"
                   runtime.TDeploymentConfig DeploymentConfigList.zero)].
Proof. revert selector S h s. list_trace. Qed.

Lemma ListImages_trace selector (S : Type) (h : handler tools.call S) s :
  trace h (imageetcd.ListImages selector) s
    = [existT _ (tools.ExtractToList "/images" runtime.TImage ImageList.zero)].
Proof. revert selector S h s. list_trace. Qed.

Lemma ListImageRepositories_trace selector (S : Type) (h : handler tools.call S) s :
  trace h (imageetcd.ListImageRepositories selector) s
    = [existT _ (tools.ExtractToList "/imageRepositories"
                   runtime.TImageRepository ImageRepositoryList.zero)].
Proof. revert selector S h s. list_trace. Qed.

End ListFunctions.

(** C3: for every selector, when the store hands over a collection,
    each List function returns, with a nil error, a collection whose
    items are exactly the items of the store's collection whose labels
    the selector matches, in the order of the store, the rest of the
    collection being kept; a selector that matches every item returns
    the collection unchanged, and one that matches none returns a
    collection with no items. *)
Theorem List_returns_matching_items_in_order :
  listsBySelector deployetcd.ListDeployments
    (tools.ExtractToList "/deployments" runtime.TDeployment
       deployapi.DeploymentList.zero)
    deployapi.DeploymentList.Items deployapi.DeploymentList.Meta
    deployapi.Deployment.Labels /\
  listsBySelector deployetcd.ListDeploymentConfigs
    (tools.ExtractToList "/deploymentConfigs" runtime.TDeploymentConfig
       deployapi.DeploymentConfigList.zero)
    deployapi.DeploymentConfigList.Items deployapi.DeploymentConfigList.Meta
    deployapi.DeploymentConfig.Labels /\
  listsBySelector imageetcd.ListImages
    (tools.ExtractToList "/images" runtime.TImage imageapi.ImageList.zero)
    imageapi.ImageList.Items imageapi.ImageList.Meta
    imageapi.Image.Labels /\
  listsBySelector imageetcd.ListImageRepositories
    (tools.ExtractToList "/imageRepositories" runtime.TImageRepository
       imageapi.ImageRepositoryList.zero)
    imageapi.ImageRepositoryList.Items imageapi.ImageRepositoryList.Meta
    imageapi.ImageRepository.Labels.
Proof.
  split; [|split; [|split]];
    [ apply (listing_filters _ _ _ deployapi.DeploymentList.setItems)
    | apply (listing_filters _ _ _ deployapi.DeploymentConfigList.setItems)
    | apply (listing_filters _ _ _ imageapi.ImageList.setItems)
    | apply (listing_filters _ _ _ imageapi.ImageRepositoryList.setItems) ];
    solve [ apply ListDeployments_run | apply ListDeploymentConfigs_run
          | apply ListImages_run | apply ListImageRepositories_run
          | intros []; reflexivity | reflexivity ].
Qed.

Lemma List_returns_matching_items_in_order_witness :
  exists result,
    run (fake.store fake.someLists fake.noObjs None)
        (deployetcd.ListDeployments (fake.labelled "env" "prod")) 0%nat
      = ((Some result, None), 1%nat) /\
    deployapi.DeploymentList.Items result
      = [fake.deployment "c" "prod"; fake.deployment "b" "prod"] /\
    deployapi.DeploymentList.Meta result = "v7".
Proof.
  destruct List_returns_matching_items_in_order as (Hlist & _).
  destruct (Hlist (fake.labelled "env" "prod") nat
              (fake.store fake.someLists fake.noObjs None) 0%nat 1%nat
              (fake.someLists runtime.TDeployment))
    as (result & Hrun & Hitems & Hmeta & _);
    [reflexivity|].
  exists result. split; [exact Hrun|]. split; [exact Hitems | exact Hmeta].
Defined.

(** C5: for every selector, when the extraction behind a List function
    fails, the function returns the store's error itself, with a nil
    collection, after that one call: the error does not pass through
    the translator, which would have turned a store failure into a
    domain error. *)
Theorem List_returns_store_error_verbatim :
  listFailsVerbatim deployetcd.ListDeployments
    (tools.ExtractToList "/deployments" runtime.TDeployment
       deployapi.DeploymentList.zero) /\
  listFailsVerbatim deployetcd.ListDeploymentConfigs
    (tools.ExtractToList "/deploymentConfigs" runtime.TDeploymentConfig
       deployapi.DeploymentConfigList.zero) /\
  listFailsVerbatim imageetcd.ListImages
    (tools.ExtractToList "/images" runtime.TImage imageapi.ImageList.zero) /\
  listFailsVerbatim imageetcd.ListImageRepositories
    (tools.ExtractToList "/imageRepositories" runtime.TImageRepository
       imageapi.ImageRepositoryList.zero) /\
  forall f op kind id,
    Some (StoreError f) <> etcderr.translate (Some (StoreError f)) op kind id.
Proof.
  split; [|split; [|split; [|split]]];
    try (eapply listing_fails;
         solve [ apply ListDeployments_run | apply ListDeploymentConfigs_run
               | apply ListImages_run | apply ListImageRepositories_run
               | apply ListDeployments_trace
               | apply ListDeploymentConfigs_trace
               | apply ListImages_trace | apply ListImageRepositories_trace ]).
  intros f op kind id. discriminate.
Qed.

Lemma List_returns_store_error_verbatim_witness :
  run (fake.store fake.someLists fake.noObjs (Some (StoreError KeyAbsent)))
      (imageetcd.ListImages labels.Everything) 0%nat
    = ((None, Some (StoreError KeyAbsent)), 1%nat).
Proof.
  destruct List_returns_store_error_verbatim as (_ & _ & Himages & _).
  destruct (Himages labels.Everything nat
              (fake.store fake.someLists fake.noObjs (Some (StoreError KeyAbsent)))
              0%nat 1%nat imageapi.ImageList.zero (StoreError KeyAbsent))
    as [Hrun _]; [reflexivity|].
  exact Hrun.
Defined.

(** ** Errors of create, read, update and delete *)

(** C6: every Get, Create, Update and Delete of a supported kind issues
    its one store call on the key of the entity and surfaces the error
    part of the answer passed through the translator with the name of
    the operation, the kind string and the id of the entity: a nil
    store error comes back as nil, and any other comes back as a domain
    error tagged with that operation, kind and id. *)
Theorem crud_errors_are_translated :
  forall (c : crud.op) (S : Type) (h : handler tools.call S) (s : S),
    match crud.storeCall c with
    | existT X e =>
        let (x, s') := h X e s in
        let surfaced := fst (run h (crud.perform c) s) in
        trace h (crud.perform c) s = [existT X e] /\
        snd (run h (crud.perform c) s) = s' /\
        surfaced = etcderr.translate (tools.errorOf e x) (crud.operation c)
                     (crud.kind c) (crud.entity c) /\
        (tools.errorOf e x = None -> surfaced = None) /\
        (tools.errorOf e x <> None ->
         taggedWith (operationName (crud.operation c)) (crud.kind c)
           (crud.entity c) surfaced)
    end.
Proof.
  intros c S h s. unfold taggedWith.
  destruct c; vm_compute;
    match goal with
    | |- context [h ?X ?e s] => destruct (h X e s) as [x s']
    end;
    repeat match goal with
           | x : (_ * _)%type |- _ => destruct x
           | x : option goError |- _ => destruct x
           end;
    repeat split; try congruence; eauto.
Qed.

Lemma crud_errors_are_translated_witness :
  fst (run (fake.store fake.noLists fake.noObjs (Some (StoreError KeyAbsent)))
         (crud.perform (crud.GetDeployment "web")) 0%nat)
    = Some (DomainError NotFound "get" "deployment" "web") /\
  fst (run (fake.store fake.noLists fake.noObjs None)
         (crud.perform (crud.DeleteImage "web")) 0%nat)
    = None.
Proof.
  split.
  - pose proof (crud_errors_are_translated (crud.GetDeployment "web") nat
                  (fake.store fake.noLists fake.noObjs (Some (StoreError KeyAbsent)))
                  0%nat) as (_ & _ & Hsurfaced & _).
    exact Hsurfaced.
  - pose proof (crud_errors_are_translated (crud.DeleteImage "web") nat
                  (fake.store fake.noLists fake.noObjs None) 0%nat)
      as (_ & _ & _ & Hnil & _).
    apply Hnil. reflexivity.
Defined.

(** ** Watch predicates *)

Section WatchPredicates.

Import deployapi imageapi.

Ltac guards :=
  split;
  [ intros [] typed; cbn; split; congruence
  | intros filter []; cbn; repeat split ].

Lemma WatchDeployments_guards :
  guardsFilter runtime.Deployment runtime.assertDeployment
    "Unexpected object during deployment watch: %#v"
    deployetcd.WatchDeployments_func1.
Proof. guards. Qed.

Lemma WatchDeploymentConfigs_guards :
  guardsFilter runtime.DeploymentConfig runtime.assertDeploymentConfig
    "Unexpected object during deploymentConfig watch: %#v"
    deployetcd.WatchDeploymentConfigs_func1.
Proof. guards. Qed.

Lemma WatchImageRepositories_guards :
  guardsFilter runtime.ImageRepository runtime.assertImageRepository
    "Unexpected object during image repository watch: %#v"
    imageetcd.WatchImageRepositories_func1.
Proof. guards. Qed.

Context {T : Type}.
Variable inj : T -> runtime.Object.
Variable assert : runtime.Object -> option T.
Variable format : string.
Variable wrap :
  (T -> Prog glog.call bool) -> runtime.Object -> Prog glog.call bool.
Hypothesis wrap_guards : guardsFilter inj assert format wrap.

Lemma wrap_foreign filter obj log :
  assert obj = None ->
  run glog.record (wrap filter obj) log = (false, (log ++ [(format, obj)])%list).
Proof.
  intros Hforeign. destruct wrap_guards as [_ Hwrap].
  specialize (Hwrap filter obj). rewrite Hforeign in Hwrap.
  destruct Hwrap as [-> _]. reflexivity.
Qed.

Lemma wrap_typed filter typed :
  wrap filter (inj typed) = filter typed.
Proof.
  destruct wrap_guards as [Hassert Hwrap].
  specialize (Hwrap filter (inj typed)).
  rewrite (proj2 (Hassert (inj typed) typed) eq_refl) in Hwrap. exact Hwrap.
Qed.

Lemma deliver_wrap (f : T -> bool) (raw : list watch.Event) :
  forall log,
    run glog.record
        (watcher.deliver (wrap (fun typed => mret (f typed))) raw) log
    = (List.filter (accepted assert f) raw,
       (log ++ map (fun ev => (format, watch.Object ev))
                 (List.filter (foreign assert) raw))%list).
Proof.
  induction raw as [|ev rest IH]; intros log; cbn.
  - rewrite app_nil_r. reflexivity.
  - unfold mbind, Prog_bind. rewrite run_bind.
    unfold accepted at 1, foreign at 1.
    destruct (assert (watch.Object ev)) as [typed|] eqn:Hassert.
    + destruct wrap_guards as [Hinj _]. apply Hinj in Hassert.
      rewrite Hassert, wrap_typed. cbn. rewrite run_bind, IH.
      destruct (f typed); reflexivity.
    + rewrite wrap_foreign by assumption. rewrite run_bind, IH. cbn.
      rewrite <- app_assoc. reflexivity.
Qed.

Lemma guards_drops : dropsForeignEvents inj assert format wrap.
Proof.
  split; [|split].
  - intros filter obj log. apply wrap_foreign.
  - intros filter typed log. rewrite wrap_typed. reflexivity.
  - intros f raw log. apply deliver_wrap.
Qed.

End WatchPredicates.

(** C4: for every raw object on a watch stream, if its dynamic type is
    not the one expected for the namespace, the predicate built by the
    Watch function writes one diagnostic and yields false, so the event
    is dropped and the delivery goes on with the events that follow;
    otherwise the predicate is the caller's filter applied to the typed
    object, and the event is forwarded exactly when that filter returns
    true. *)
Theorem watch_drops_foreign_objects_and_goes_on :
  (opensWatchWith deployetcd.WatchDeployments
     deployetcd.parseWatchResourceVersion "/deployments" "deployment"
     deployetcd.WatchDeployments_func1 /\
   dropsForeignEvents runtime.Deployment runtime.assertDeployment
     "Unexpected object during deployment watch: %#v"
     deployetcd.WatchDeployments_func1) /\
  (opensWatchWith deployetcd.WatchDeploymentConfigs
     deployetcd.parseWatchResourceVersion "/deploymentConfigs" "deploymentConfig"
     deployetcd.WatchDeploymentConfigs_func1 /\
   dropsForeignEvents runtime.DeploymentConfig runtime.assertDeploymentConfig
     "Unexpected object during deploymentConfig watch: %#v"
     deployetcd.WatchDeploymentConfigs_func1) /\
  (opensWatchWith imageetcd.WatchImageRepositories
     imageetcd.parseWatchResourceVersion "/imageRepositories" "imageRepository"
     imageetcd.WatchImageRepositories_func1 /\
   dropsForeignEvents runtime.ImageRepository runtime.assertImageRepository
     "Unexpected object during image repository watch: %#v"
     imageetcd.WatchImageRepositories_func1).
Proof.
  split; [|split]; (split; [|apply guards_drops]);
    auto using WatchDeployments_guards, WatchDeploymentConfigs_guards,
      WatchImageRepositories_guards;
    intros token filter cursor Hparse;
    [ unfold deployetcd.WatchDeployments
    | unfold deployetcd.WatchDeploymentConfigs
    | unfold imageetcd.WatchImageRepositories ];
    rewrite Hparse; reflexivity.
Qed.

Lemma watch_drops_foreign_objects_and_goes_on_witness :
  run glog.record
      (watcher.deliver
         (deployetcd.WatchDeployments_func1
            (fun d => mret (String.eqb (deployapi.Deployment.ID d) "b")))
         fake.someChanges) []
    = ([ {| watch.Type_ := watch.Modified;
            watch.Object := runtime.Deployment (fake.deployment "b" "test") |} ],
       [ ("Unexpected object during deployment watch: %#v",
          runtime.Image (fake.image "i")) ]) /\
  run glog.record
      (deployetcd.WatchDeployments_func1 (fun _ => mret true)
         (runtime.Image (fake.image "i"))) []
    = (false,
       [ ("Unexpected object during deployment watch: %#v",
          runtime.Image (fake.image "i")) ]).
Proof.
  destruct watch_drops_foreign_objects_and_goes_on
    as ((_ & Hforeign & _ & Hdeliver) & _).
  split.
  - exact (Hdeliver (fun d => String.eqb (deployapi.Deployment.ID d) "b")
             fake.someChanges []).
  - apply (Hforeign (fun _ => mret true) (runtime.Image (fake.image "i")) []).
    reflexivity.
Defined.

(** C10: the caller's filter is reached only through a successful type
    assertion, that is on objects whose dynamic type is the expected
    one; on an object of any other type the predicate is the program
    that logs and returns false, the same for every filter, and its
    only call is the diagnostic. *)
Theorem watch_filter_sees_only_expected_type :
  guardsFilter runtime.Deployment runtime.assertDeployment
    "Unexpected object during deployment watch: %#v"
    deployetcd.WatchDeployments_func1 /\
  guardsFilter runtime.DeploymentConfig runtime.assertDeploymentConfig
    "Unexpected object during deploymentConfig watch: %#v"
    deployetcd.WatchDeploymentConfigs_func1 /\
  guardsFilter runtime.ImageRepository runtime.assertImageRepository
    "Unexpected object during image repository watch: %#v"
    imageetcd.WatchImageRepositories_func1.
Proof.
  auto using WatchDeployments_guards, WatchDeploymentConfigs_guards,
    WatchImageRepositories_guards.
Qed.

Lemma watch_filter_sees_only_expected_type_witness :
  deployetcd.WatchDeployments_func1 (fun _ => mret true)
    (runtime.Image (fake.image "i"))
  = Call (glog.Errorf "Unexpected object during deployment watch: %#v"
            (runtime.Image (fake.image "i")))
         (fun _ => Ret false) /\
  runtime.assertDeployment (runtime.Deployment (fake.deployment "a" "prod"))
  = Some (fake.deployment "a" "prod").
Proof.
  destruct watch_filter_sees_only_expected_type as ((Hassert & Hwrap) & _).
  split.
  - destruct (Hwrap (fun _ => mret true) (runtime.Image (fake.image "i")))
      as [Hprogram _].
    exact Hprogram.
  - apply Hassert. reflexivity.
Defined.

(** * Further properties of the registries *)

(** ** The tokens a Watch accepts *)

Section Acceptance.

Lemma versionOf_decimal token N :
  versionOf token = Some N -> decimal token = Some N /\ N <= maxUint64.
Proof.
  unfold versionOf. destruct (decimal token) as [M|]; [|discriminate].
  destruct (Z.leb_spec M maxUint64); [|discriminate].
  intros [= <-]. auto.
Qed.

Lemma parse_by_cursorOf token kind :
  deployetcd.parseWatchResourceVersion token kind =
    match registry.cursorOf token with
    | Some cursor => (cursor, None)
    | None => (0, Some (InvalidResourceVersion kind token))
    end.
Proof.
  unfold registry.cursorOf.
  destruct (String.eqb_spec token "") as [->|Hempty]; [reflexivity|].
  destruct (versionOf token) as [N|] eqn:Hversion.
  - destruct (String.eqb_spec token "0") as [->|Hzero]; [reflexivity|].
    apply versionOf_decimal in Hversion as [Hdec HN].
    apply parse_successor; assumption.
  - apply parse_rejects; assumption.
Qed.

End Acceptance.

(** X1: both copies of [parseWatchResourceVersion] accept exactly the
    empty token and the strings of decimal digits whose value fits 64
    bits (leading zeros included); on every other token they return
    cursor 0 together with the error that carries the kind and the
    token.  No token yields a cursor and an error at once. *)
Theorem parseWatchResourceVersion_accepts_exactly_versions :
  forall token kind : string,
    let result := deployetcd.parseWatchResourceVersion token kind in
    imageetcd.parseWatchResourceVersion token kind = result /\
    (snd result = None <-> token = "" \/ versionOf token <> None) /\
    (snd result <> None ->
     result = (0, Some (InvalidResourceVersion kind token))) /\
    (forall N, versionOf token = Some N -> token <> "0" ->
     result = (wrap64 (N + 1), None)).
Proof.
  intros token kind result. subst result.
  split; [reflexivity|].
  rewrite parse_by_cursorOf. unfold registry.cursorOf.
  destruct (String.eqb_spec token "") as [->|Hempty].
  - split; [|split]; cbn; [tauto | congruence | discriminate].
  - destruct (versionOf token) as [N|] eqn:Hversion; cbn;
      (split; [|split]).
    + split; [intros _; right; discriminate | reflexivity].
    + congruence.
    + intros M [= <-] Hzero.
      destruct (String.eqb_spec token "0"); [contradiction | reflexivity].
    + split; [discriminate | intros [|]; [contradiction | congruence]].
    + reflexivity.
    + discriminate.
Qed.

Lemma parseWatchResourceVersion_accepts_exactly_versions_witness :
  deployetcd.parseWatchResourceVersion "007" "image" = (8, None) /\
  deployetcd.parseWatchResourceVersion "-1" "image"
    = (0, Some (InvalidResourceVersion "image" "-1")).
Proof.
  split.
  - destruct (parseWatchResourceVersion_accepts_exactly_versions "007" "image")
      as (_ & _ & _ & Hsucc).
    apply (Hsucc 7); [reflexivity | discriminate].
  - destruct (parseWatchResourceVersion_accepts_exactly_versions "-1" "image")
      as (_ & _ & Hfail & _).
    apply Hfail. discriminate.
Defined.

(** ** Opening a watch *)

(** X2: on a token it accepts, each Watch function is the single call
    that opens the store's watch on the namespace of its own kind, at
    cursor 0 for the tokens [""] and ["0"] and at the successor of the
    version (modulo [2^64]) otherwise, with the predicate built around
    the caller's filter; what the store answers, stream or error, is
    returned as it is, so an error of the store reaches the caller
    untranslated. *)
Theorem Watch_opens_one_watch_at_the_cursor :
  forall (T : runtime.apiType) (w : registry.watched T) (token : string)
         (filter : runtime.objOf T -> Prog glog.call bool) (cursor : Z),
    registry.cursorOf token = Some cursor ->
    let opening :=
      tools.WatchList (registry.namespaceOf T) cursor
        (registry.predicateOf w filter) in
    registry.Watch w token filter = call opening /\
    forall (S : Type) (h : handler tools.call S) (s : S),
      run h (registry.Watch w token filter) s = h _ opening s /\
      trace h (registry.Watch w token filter) s = [existT _ opening].
Proof.
  intros T w token filter cursor Hcursor opening.
  assert (Hprogram : registry.Watch w token filter = call opening).
  { subst opening.
    destruct w; cbn;
      [ unfold deployetcd.WatchDeployments
      | unfold deployetcd.WatchDeploymentConfigs
      | unfold imageetcd.WatchImageRepositories ];
      rewrite ?parse_image_deploy, parse_by_cursorOf, Hcursor; reflexivity. }
  split; [exact Hprogram|]. intros S h s. rewrite Hprogram. cbn.
  destruct (h _ opening s) as [answer s']. split; reflexivity.
Qed.

Lemma Watch_opens_one_watch_at_the_cursor_witness :
  run (fake.store fake.noLists fake.noObjs (Some (StoreError (OtherFailure "down"))))
      (deployetcd.WatchDeploymentConfigs "41" (fun _ => mret true)) 5%nat
    = ((None, Some (StoreError (OtherFailure "down"))), 6%nat).
Proof.
  destruct (Watch_opens_one_watch_at_the_cursor runtime.TDeploymentConfig
              registry.WDeploymentConfig "41" (fun _ => mret true) 42 eq_refl)
    as [_ Hrun].
  destruct (Hrun nat
              (fake.store fake.noLists fake.noObjs
                 (Some (StoreError (OtherFailure "down")))) 5%nat)
    as [Hanswer _].
  exact Hanswer.
Defined.

(** ** Results and errors *)

Section Results.

Import runtime.

Implicit Types (T : apiType).

Lemma run_List_any T selector (S : Type) (h : handler tools.call S) (s : S) :
  run h (registry.List T selector) s =
    match h _ (tools.ExtractToList (registry.namespaceOf T) T
                 (registry.zeroListOf T)) s with
    | ((_, Some e), s') => ((None, Some e), s')
    | ((l, None), s') =>
        ((Some (registry.setItemsOf T l
                  (List.filter
                     (fun item =>
                        labels.Matches selector (registry.labelsOf T item))
                     (registry.itemsOf T l))),
          None), s')
    end.
Proof.
  destruct T; cbn [registry.List];
    [ rewrite ListDeployments_run | rewrite ListDeploymentConfigs_run
    | rewrite ListImages_run | rewrite ListImageRepositories_run ];
    cbn [registry.namespaceOf registry.zeroListOf];
    destruct (h _ _ s) as [[l [e|]] s']; rewrite ?loop_filter; reflexivity.
Qed.

Lemma itemsOf_setItemsOf T (l : listOf T) items :
  registry.itemsOf T (registry.setItemsOf T l items) = items.
Proof. destruct T; reflexivity. Qed.

End Results.

(** X3: whatever the store answers, a Get function and a List function
    return exactly one of a result and an error: when the store reports
    no error, the entity it decoded, or a collection whose items are the
    extracted items the selector matches; and otherwise an error and
    nil, even if the store has written into the value it was handed. *)
Theorem Get_and_List_return_result_xor_error :
  forall (T : runtime.apiType) (S : Type) (h : handler tools.call S) (s : S)
         (id : string) (selector : labels.Selector),
    let got := fst (run h (registry.Get T id) s) in
    let listed := fst (run h (registry.List T selector) s) in
    let read :=
      fst (h _ (tools.ExtractObj (registry.keyOf T id) T (registry.zeroOf T)
                  false) s) in
    let extracted :=
      fst (h _ (tools.ExtractToList (registry.namespaceOf T) T
                  (registry.zeroListOf T)) s) in
    (fst got = None <-> snd got <> None) /\
    (fst listed = None <-> snd listed <> None) /\
    (snd read = None -> got = (Some (fst read), None)) /\
    (snd read <> None -> fst got = None) /\
    (snd extracted <> None -> listed = (None, snd extracted)) /\
    (snd extracted = None ->
     exists l : runtime.listOf T,
       listed = (Some l, None) /\
       registry.itemsOf T l
         = List.filter
             (fun item => labels.Matches selector (registry.labelsOf T item))
             (registry.itemsOf T (fst extracted))).
Proof.
  intros T S h s id selector got listed read extracted.
  assert (Hlisted :
            snd extracted = None ->
            exists l : runtime.listOf T,
              listed = (Some l, None) /\
              registry.itemsOf T l
                = List.filter
                    (fun item =>
                       labels.Matches selector (registry.labelsOf T item))
                    (registry.itemsOf T (fst extracted))).
  { subst listed extracted. rewrite run_List_any.
    destruct (h _ (tools.ExtractToList _ _ _) s) as [[l [e|]] s']; cbn;
      [discriminate|]. intros _.
    eexists. split; [reflexivity | apply itemsOf_setItemsOf]. }
  split; [|split; [|split; [|split; [|split; [|exact Hlisted]]]]];
    clear Hlisted; subst got listed read extracted;
    destruct T; cbn;
    repeat match goal with
           | |- context [h ?X ?e s] => destruct (h X e s) as [[? [?|]] ?]
           end;
    cbn; repeat split; try congruence; try tauto; try discriminate.
Qed.

Lemma Get_and_List_return_result_xor_error_witness :
  fst (fst (run (fake.store fake.noLists fake.noObjs (Some (StoreError KeyAbsent)))
              (imageetcd.GetImage "web") 0%nat))
    = None /\
  exists l,
    fst (run (fake.store fake.someLists fake.noObjs None)
           (deployetcd.ListDeployments (fake.labelled "env" "test")) 0%nat)
      = (Some l, None) /\
    deployapi.DeploymentList.Items l = [fake.deployment "a" "test"].
Proof.
  split.
  - destruct (Get_and_List_return_result_xor_error runtime.TImage nat
                (fake.store fake.noLists fake.noObjs (Some (StoreError KeyAbsent)))
                0%nat "web" labels.Everything)
      as (_ & _ & _ & Hfailed & _).
    apply Hfailed. discriminate.
  - destruct (Get_and_List_return_result_xor_error runtime.TDeployment nat
                (fake.store fake.someLists fake.noObjs None)
                0%nat "web" (fake.labelled "env" "test"))
      as (_ & _ & _ & _ & _ & Hlisted).
    destruct (Hlisted eq_refl) as (l & Hrun & Hitems).
    exists l. split; [exact Hrun | exact Hitems].
Defined.

(** ** Keys of different kinds *)

Section Namespaces.

Lemma prefix_append (p s : string) : String.prefix p (p +:+ s) = true.
Proof.
  induction p as [|c p IH]; simpl; [destruct s; reflexivity|].
  destruct (ascii_dec c c); [exact IH | contradiction].
Qed.

Lemma keyOf_namespace T id :
  registry.keyOf T id = (registry.namespaceOf T +:+ "/") +:+ id.
Proof. destruct T; reflexivity. Qed.

Lemma keyOf_under T T' id :
  String.prefix (registry.namespaceOf T' +:+ "/") (registry.keyOf T id) = true
  <-> T = T'.
Proof.
  split.
  - destruct T, T'; try reflexivity; vm_compute; discriminate.
  - intros <-. rewrite keyOf_namespace. apply prefix_append.
Qed.

Lemma keyOf_inj T T' id id' :
  registry.keyOf T id = registry.keyOf T' id' -> T = T' /\ id = id'.
Proof.
  destruct T, T'; vm_compute; intros Heq;
    solve [ discriminate Heq | split; [reflexivity | congruence] ].
Qed.

End Namespaces.

(** X4: the key of an entity lies under the namespace directory of its
    own kind and under that of no other kind, and two keys are equal
    only for the same kind and the same id: records of different kinds
    never share or shadow a key, whatever their ids. *)
Theorem keys_of_different_kinds_never_meet :
  forall (T T' : runtime.apiType) (id id' : string),
    (String.prefix (registry.namespaceOf T' +:+ "/") (registry.keyOf T id) = true
     <-> T = T') /\
    (registry.keyOf T id = registry.keyOf T' id' <-> T = T' /\ id = id').
Proof.
  intros T T' id id'. split; [apply keyOf_under|].
  split; [apply keyOf_inj | intros [<- <-]; reflexivity].
Qed.

Lemma keys_of_different_kinds_never_meet_witness :
  deployetcd.makeDeploymentKey "Configs/x"
    <> deployetcd.makeDeploymentConfigKey "x".
Proof.
  intros Heq.
  destruct (keys_of_different_kinds_never_meet runtime.TDeployment
              runtime.TDeploymentConfig "Configs/x" "x") as [_ [Hmeet _]].
  destruct (Hmeet Heq) as [Hkind _]. discriminate Hkind.
Defined.

(** ** The registries over the reference store *)

Section OverTheStore.

Import runtime.

Implicit Types (T : apiType) (m : gmap string Object) (id : string).

Lemma decode_toObject T (o : objOf T) :
  memstore.decode T (registry.toObject T o) = Some o.
Proof. destruct T; reflexivity. Qed.

Lemma decode_Some T obj (o : objOf T) :
  memstore.decode T obj = Some o -> obj = registry.toObject T o.
Proof. destruct T, obj; cbn; congruence. Qed.

Lemma toObject_inj T (o o' : objOf T) :
  registry.toObject T o = registry.toObject T o' -> o = o'.
Proof. destruct T; cbn; congruence. Qed.

Lemma run_Get T id m :
  run memstore.store (registry.Get T id) m =
    (match m !! registry.keyOf T id with
     | None => (None, Some (DomainError NotFound "get" (registry.kindOf T) id))
     | Some obj =>
         match memstore.decode T obj with
         | Some o => (Some o, None)
         | None =>
             (None, Some (DomainError Internal "get" (registry.kindOf T) id))
         end
     end, m).
Proof.
  destruct T; cbn;
    (destruct (m !! _) as [[]|]; reflexivity).
Qed.

Lemma run_Create T (o : objOf T) m :
  run memstore.store (registry.Create T o) m =
    match m !! registry.keyOf T (registry.idOf T o) with
    | Some _ =>
        (Some (DomainError AlreadyExists "create" (registry.kindOf T)
                 (registry.idOf T o)), m)
    | None => (None, <[registry.keyOf T (registry.idOf T o)
                        := registry.toObject T o]> m)
    end.
Proof. destruct T; cbn; (destruct (m !! _); reflexivity). Qed.

Lemma run_Update T (o : objOf T) m :
  T <> TImage ->
  run memstore.store (registry.Update T o) m =
    (None, <[registry.keyOf T (registry.idOf T o) := registry.toObject T o]> m).
Proof. destruct T; try reflexivity. congruence. Qed.

Lemma run_Delete T id m :
  run memstore.store (registry.Delete T id) m =
    match m !! registry.keyOf T id with
    | Some _ => (None, delete (registry.keyOf T id) m)
    | None =>
        (Some (DomainError NotFound "delete" (registry.kindOf T) id), m)
    end.
Proof. destruct T; cbn; (destruct (m !! _); reflexivity). Qed.

Lemma Get_holds T (o : objOf T) m :
  memstore.holds m T o ->
  run memstore.store (registry.Get T (registry.idOf T o)) m = ((Some o, None), m).
Proof.
  unfold memstore.holds. intros Hm.
  rewrite run_Get, Hm, decode_toObject. reflexivity.
Qed.

End OverTheStore.

(** X5: over the reference store, a Create that succeeds has written
    the entity under a key that was free, and a Get of the entity's own
    id then returns that entity, without changing the store. *)
Theorem Create_then_Get_returns_the_entity :
  forall (T : runtime.apiType) (o : runtime.objOf T)
         (m m' : gmap string runtime.Object),
    run memstore.store (registry.Create T o) m = (None, m') ->
    m !! registry.keyOf T (registry.idOf T o) = None /\
    memstore.holds m' T o /\
    run memstore.store (registry.Get T (registry.idOf T o)) m'
      = ((Some o, None), m').
Proof.
  intros T o m m'. rewrite run_Create.
  destruct (m !! _) eqn:Hkey; [discriminate|]. intros [= <-].
  assert (Hholds : memstore.holds
                     (<[registry.keyOf T (registry.idOf T o)
                        := registry.toObject T o]> m) T o)
    by apply lookup_insert_eq.
  auto using Get_holds.
Qed.

Lemma Create_then_Get_returns_the_entity_witness :
  run memstore.store (deployetcd.GetDeployment "a")
      {[ "/deployments/a" := runtime.Deployment (fake.deployment "a" "prod") ]}
    = ((Some (fake.deployment "a" "prod"), None),
       {[ "/deployments/a" := runtime.Deployment (fake.deployment "a" "prod") ]}).
Proof.
  destruct (Create_then_Get_returns_the_entity runtime.TDeployment
              (fake.deployment "a" "prod") ∅
              {[ "/deployments/a"
                 := runtime.Deployment (fake.deployment "a" "prod") ]})
    as (_ & _ & Hget); [reflexivity|].
  exact Hget.
Defined.

(** X6: over the reference store, a Create on an id that is taken
    fails with AlreadyExists for the operation "create", the kind and
    the id, and leaves the store as it was: of two Creates with one id
    the second fails and the first entity stays. *)
Theorem Create_twice_keeps_the_first_entity :
  forall (T : runtime.apiType) (o o' : runtime.objOf T)
         (m : gmap string runtime.Object),
    registry.idOf T o' = registry.idOf T o ->
    (memstore.holds m T o ->
     run memstore.store (registry.Create T o') m
       = (Some (DomainError AlreadyExists "create" (registry.kindOf T)
                  (registry.idOf T o)), m)) /\
    (m !! registry.keyOf T (registry.idOf T o) = None ->
     let m' := <[registry.keyOf T (registry.idOf T o)
                 := registry.toObject T o]> m in
     run memstore.store
         (registry.Create T o ≫= fun _ => registry.Create T o') m
       = (Some (DomainError AlreadyExists "create" (registry.kindOf T)
                  (registry.idOf T o)), m') /\
     memstore.holds m' T o).
Proof.
  intros T o o' m Hid. split.
  - unfold memstore.holds. intros Hholds.
    rewrite run_Create, Hid, Hholds. reflexivity.
  - intros Hfree m'. unfold mbind, Prog_bind.
    rewrite run_bind, run_Create, Hfree, run_Create, Hid.
    subst m'. rewrite lookup_insert_eq.
    split; [reflexivity | apply lookup_insert_eq].
Qed.

Lemma Create_twice_keeps_the_first_entity_witness :
  run memstore.store
      (imageetcd.CreateImage (fake.image "i")
         ≫= fun _ => imageetcd.CreateImage (fake.image "i")) ∅
    = (Some (DomainError AlreadyExists "create" "image" "i"),
       {[ "/images/i" := runtime.Image (fake.image "i") ]}).
Proof.
  destruct (Create_twice_keeps_the_first_entity runtime.TImage
              (fake.image "i") (fake.image "i") ∅ eq_refl) as [_ Htwice].
  destruct (Htwice eq_refl) as [Hrun _].
  exact Hrun.
Defined.

(** X7: over the reference store, after a Delete of an id, whether it
    succeeded or not, a Get of that id fails with NotFound for the
    operation "get"; a Delete of an id that is not there fails with
    NotFound for the operation "delete" and leaves the store as it
    was. *)
Theorem Delete_then_Get_is_NotFound :
  forall (T : runtime.apiType) (id : string) (m : gmap string runtime.Object),
    let m' := snd (run memstore.store (registry.Delete T id) m) in
    run memstore.store (registry.Get T id) m'
      = ((None, Some (DomainError NotFound "get" (registry.kindOf T) id)), m') /\
    m' = delete (registry.keyOf T id) m /\
    (m !! registry.keyOf T id = None ->
     run memstore.store (registry.Delete T id) m
       = (Some (DomainError NotFound "delete" (registry.kindOf T) id), m)).
Proof.
  intros T id m m'.
  assert (Hm' : m' = delete (registry.keyOf T id) m).
  { subst m'. rewrite run_Delete.
    destruct (m !! _) eqn:Hkey; cbn; [reflexivity|].
    symmetry. apply delete_id. exact Hkey. }
  split; [|split; [exact Hm'|]].
  - rewrite run_Get, Hm', lookup_delete_eq. reflexivity.
  - intros Hkey. rewrite run_Delete, Hkey. reflexivity.
Qed.

Lemma Delete_then_Get_is_NotFound_witness :
  run memstore.store (imageetcd.DeleteImageRepository "r") ∅
    = (Some (DomainError NotFound "delete" "imageRepository" "r"), ∅).
Proof.
  destruct (Delete_then_Get_is_NotFound runtime.TImageRepository "r" ∅)
    as (_ & _ & Hmissing).
  apply Hmissing. reflexivity.
Defined.

(** X8: over the reference store, an Update of a kind that has one
    writes the entity whether or not its id was there and whatever was
    there, with no comparison of versions, and a Get of the id then
    returns the entity; the image kind's Update changes nothing. *)
Theorem Update_overwrites_blindly :
  forall (T : runtime.apiType) (o : runtime.objOf T)
         (m : gmap string runtime.Object),
    (T <> runtime.TImage ->
     run memstore.store
         (registry.Update T o ≫= fun _ => registry.Get T (registry.idOf T o)) m
       = ((Some o, None),
          <[registry.keyOf T (registry.idOf T o) := registry.toObject T o]> m)) /\
    (forall image : imageapi.Image.t,
       snd (run memstore.store (imageetcd.UpdateImage image) m) = m).
Proof.
  intros T o m. split; [|reflexivity].
  intros Hkind. unfold mbind, Prog_bind.
  rewrite run_bind, run_Update by assumption.
  apply Get_holds. apply lookup_insert_eq.
Qed.

Lemma Update_overwrites_blindly_witness :
  run memstore.store
      (deployetcd.UpdateDeployment (fake.deployment "a" "test")
         ≫= fun _ => deployetcd.GetDeployment "a")
      {[ "/deployments/a" := runtime.Deployment (fake.deployment "a" "prod") ]}
    = ((Some (fake.deployment "a" "test"), None),
       <["/deployments/a" := runtime.Deployment (fake.deployment "a" "test")]>
         {[ "/deployments/a"
            := runtime.Deployment (fake.deployment "a" "prod") ]}).
Proof.
  destruct (Update_overwrites_blindly runtime.TDeployment
              (fake.deployment "a" "test")
              {[ "/deployments/a"
                 := runtime.Deployment (fake.deployment "a" "prod") ]})
    as [Hupdate _].
  apply Hupdate. discriminate.
Defined.

Section Isolation.

Import runtime.

Implicit Types (T : apiType) (m : gmap string Object) (id : string).

Lemma Get_depends_on_its_key T id m m' :
  m' !! registry.keyOf T id = m !! registry.keyOf T id ->
  fst (run memstore.store (registry.Get T id) m')
    = fst (run memstore.store (registry.Get T id) m).
Proof. intros Hkey. rewrite !run_Get, Hkey. reflexivity. Qed.

Lemma Create_writes_one_key T (o : objOf T) m key :
  key <> registry.keyOf T (registry.idOf T o) ->
  snd (run memstore.store (registry.Create T o) m) !! key = m !! key.
Proof.
  intros Hkey. rewrite run_Create.
  destruct (m !! registry.keyOf T _); cbn; [reflexivity|].
  apply lookup_insert_ne. congruence.
Qed.

Lemma Update_writes_one_key T (o : objOf T) m key :
  key <> registry.keyOf T (registry.idOf T o) ->
  snd (run memstore.store (registry.Update T o) m) !! key = m !! key.
Proof.
  intros Hkey.
  destruct T; [| |reflexivity|];
    (rewrite run_Update by discriminate; apply lookup_insert_ne; congruence).
Qed.

Lemma Delete_writes_one_key T id m key :
  key <> registry.keyOf T id ->
  snd (run memstore.store (registry.Delete T id) m) !! key = m !! key.
Proof.
  intros Hkey. rewrite run_Delete.
  destruct (m !! registry.keyOf T _); cbn; [|reflexivity].
  apply lookup_delete_ne. congruence.
Qed.

Lemma wellKeyed_insert T (o : objOf T) m :
  memstore.wellKeyed m ->
  memstore.wellKeyed
    (<[registry.keyOf T (registry.idOf T o) := registry.toObject T o]> m).
Proof.
  intros Hm key obj. rewrite lookup_insert.
  destruct (decide (registry.keyOf T (registry.idOf T o) = key)) as [<-|_].
  - intros [= <-]. eauto.
  - apply Hm.
Qed.

Lemma wellKeyed_delete key m :
  memstore.wellKeyed m -> memstore.wellKeyed (delete key m).
Proof.
  intros Hm key' obj Hlookup. apply lookup_delete_Some in Hlookup as [_ Hlookup].
  eauto.
Qed.

Lemma wellKeyed_Update T (o : objOf T) m :
  memstore.wellKeyed m ->
  memstore.wellKeyed (snd (run memstore.store (registry.Update T o) m)).
Proof.
  intros Hm.
  destruct T; [| |exact Hm|];
    (rewrite run_Update by discriminate; apply wellKeyed_insert; exact Hm).
Qed.

Lemma toObject_key T T' (o : objOf T) (o' : objOf T') :
  registry.toObject T o = registry.toObject T' o' ->
  registry.keyOf T (registry.idOf T o) = registry.keyOf T' (registry.idOf T' o').
Proof. destruct T, T'; cbn; congruence. Qed.

End Isolation.

(** X9: over the reference store, a Create, an Update or a Delete of
    one entity changes the answer of no Get of another kind or of
    another id: every write touches the one key of its entity. *)
Theorem writes_leave_other_entities_alone :
  forall (T T' : runtime.apiType) (o : runtime.objOf T) (id' : string)
         (m : gmap string runtime.Object),
    T' <> T \/ id' <> registry.idOf T o ->
    let unchanged write :=
      fst (run memstore.store (registry.Get T' id')
             (snd (run memstore.store write m)))
        = fst (run memstore.store (registry.Get T' id') m) in
    unchanged (registry.Create T o) /\
    unchanged (registry.Update T o) /\
    unchanged (registry.Delete T (registry.idOf T o)).
Proof.
  intros T T' o id' m Hother unchanged. subst unchanged.
  assert (Hkey : registry.keyOf T' id' <> registry.keyOf T (registry.idOf T o)).
  { intros Heq. apply keyOf_inj in Heq as [? ?]. tauto. }
  split; [|split]; apply Get_depends_on_its_key;
    auto using Create_writes_one_key, Update_writes_one_key,
      Delete_writes_one_key.
Qed.

Lemma writes_leave_other_entities_alone_witness :
  fst (run memstore.store (deployetcd.GetDeployment "a")
         (snd (run memstore.store (deployetcd.DeleteDeploymentConfig "a")
                 {[ "/deployments/a"
                    := runtime.Deployment (fake.deployment "a" "prod");
                    "/deploymentConfigs/a"
                    := runtime.DeploymentConfig
                         deployapi.DeploymentConfig.zero ]})))
    = (Some (fake.deployment "a" "prod"), None).
Proof.
  destruct (writes_leave_other_entities_alone runtime.TDeploymentConfig
              runtime.TDeployment
              {| deployapi.DeploymentConfig.ID := "a";
                 deployapi.DeploymentConfig.Labels := ∅;
                 deployapi.DeploymentConfig.Fields := "" |}
              "a"
              {[ "/deployments/a"
                 := runtime.Deployment (fake.deployment "a" "prod");
                 "/deploymentConfigs/a"
                 := runtime.DeploymentConfig
                      deployapi.DeploymentConfig.zero ]})
    as (_ & _ & Hdelete); [left; discriminate|].
  etransitivity; [exact Hdelete | reflexivity].
Defined.

(** X10: the registries keep every record under the key of its own kind
    and id.  The empty store is so keyed, every Create, Update and
    Delete keeps a store so keyed, and over such a store a Get either
    fails with NotFound or returns an entity whose id is the id asked
    for: it never fails to decode and never returns another entity. *)
Theorem registries_keep_records_under_their_own_key :
  memstore.wellKeyed ∅ /\
  forall (T : runtime.apiType) (o : runtime.objOf T) (id : string)
         (m : gmap string runtime.Object),
    memstore.wellKeyed m ->
    memstore.wellKeyed (snd (run memstore.store (registry.Create T o) m)) /\
    memstore.wellKeyed (snd (run memstore.store (registry.Update T o) m)) /\
    memstore.wellKeyed (snd (run memstore.store (registry.Delete T id) m)) /\
    (fst (run memstore.store (registry.Get T id) m)
       = (None, Some (DomainError NotFound "get" (registry.kindOf T) id)) \/
     exists found : runtime.objOf T,
       fst (run memstore.store (registry.Get T id) m) = (Some found, None) /\
       registry.idOf T found = id /\ memstore.holds m T found).
Proof.
  split; [intros key obj; rewrite lookup_empty; discriminate|].
  intros T o id m Hm. split; [|split; [|split]].
  - rewrite run_Create. destruct (m !! _); cbn; auto using wellKeyed_insert.
  - apply wellKeyed_Update. exact Hm.
  - rewrite run_Delete. destruct (m !! _); cbn; auto using wellKeyed_delete.
  - rewrite run_Get. destruct (m !! registry.keyOf T id) as [obj|] eqn:Hkey;
      [|left; reflexivity].
    right. destruct (Hm _ _ Hkey) as (T' & o' & -> & Hkey').
    apply keyOf_inj in Hkey' as [-> ->].
    rewrite decode_toObject. exists o'. cbn. auto.
Qed.

Lemma registries_keep_records_under_their_own_key_witness :
  memstore.wellKeyed
    (snd (run memstore.store
            (deployetcd.CreateDeployment (fake.deployment "a" "prod")) ∅)).
Proof.
  destruct registries_keep_records_under_their_own_key as [Hempty Hkeeps].
  destruct (Hkeeps runtime.TDeployment (fake.deployment "a" "prod") "a" ∅ Hempty)
    as (Hcreate & _).
  exact Hcreate.
Defined.

(** ** Listing over the reference store *)

Section ListOverTheStore.

Import runtime.

Implicit Types (T : apiType) (m : gmap string Object) (id : string).

Lemma decodeAll_map T objs : forall items,
  memstore.decodeAll T objs = Some items ->
  map (registry.toObject T) items = objs.
Proof.
  induction objs as [|obj objs IH]; cbn; intros items.
  - intros [= <-]. reflexivity.
  - destruct (memstore.decode T obj) as [o|] eqn:Hobj; [|discriminate].
    destruct (memstore.decodeAll T objs) as [os|]; [|discriminate].
    intros [= <-]. cbn. rewrite (IH os eq_refl).
    rewrite <- (decode_Some _ _ _ Hobj). reflexivity.
Qed.

Lemma decodeAll_typed T objs :
  (forall obj, In obj objs -> exists o : objOf T, obj = registry.toObject T o) ->
  exists items, memstore.decodeAll T objs = Some items.
Proof.
  induction objs as [|obj objs IH]; cbn; intros Htyped; [eauto|].
  destruct (Htyped obj) as [o ->]; [auto|].
  destruct IH as [os Hos]; [auto|].
  rewrite decode_toObject, Hos. eauto.
Qed.

Lemma nodes_spec T m key obj :
  memstore.wellKeyed m ->
  In (key, obj) (memstore.nodes T m) <->
  exists o : objOf T,
    obj = registry.toObject T o /\
    key = registry.keyOf T (registry.idOf T o) /\ memstore.holds m T o.
Proof.
  intros Hm. unfold memstore.nodes. rewrite filter_In, <- list_elem_of_In.
  rewrite elem_of_map_to_list. unfold memstore.under, memstore.holds. cbn.
  split.
  - intros [Hkey Hunder].
    destruct (Hm _ _ Hkey) as (T' & o & -> & ->).
    apply keyOf_under in Hunder as ->. eauto.
  - intros (o & -> & -> & Hholds). split; [exact Hholds|].
    apply keyOf_under. reflexivity.
Qed.

Lemma nodes_NoDup T m :
  memstore.wellKeyed m -> List.NoDup (map snd (memstore.nodes T m)).
Proof.
  intros Hm. apply NoDup_map_NoDup_ForallPairs.
  - intros [key obj] [key' obj'] Hin Hin' Heq. cbn in Heq. subst obj'.
    apply (nodes_spec _ _ _ _ Hm) in Hin as (o & Ho & -> & _).
    apply (nodes_spec _ _ _ _ Hm) in Hin' as (o' & Ho' & -> & _).
    subst obj. apply toObject_inj in Ho' as ->. reflexivity.
  - unfold memstore.nodes. apply List.NoDup_filter, NoDup_ListNoDup, NoDup_map_to_list.
Qed.

Lemma List_over_store T selector m :
  memstore.wellKeyed m ->
  exists l : listOf T,
    run memstore.store (registry.List T selector) m = ((Some l, None), m) /\
    (forall o : objOf T,
       In o (registry.itemsOf T l) <->
       memstore.holds m T o /\
       labels.Matches selector (registry.labelsOf T o) = true) /\
    List.NoDup (registry.itemsOf T l).
Proof.
  intros Hm.
  destruct (decodeAll_typed T (map snd (memstore.nodes T m))) as [items Hitems].
  { intros obj Hin. apply in_map_iff in Hin as ([key obj'] & <- & Hin).
    apply (nodes_spec _ _ _ _ Hm) in Hin as (o & -> & _). eauto. }
  pose proof (decodeAll_map _ _ _ Hitems) as Hmap.
  eexists. split; [|split].
  - rewrite run_List_any. cbn [memstore.store].
    fold (memstore.nodes T m). rewrite Hitems. reflexivity.
  - intros o. rewrite !itemsOf_setItemsOf, filter_In.
    apply and_iff_compat_r. split.
    + intros Hin. apply (in_map (registry.toObject T)) in Hin.
      rewrite Hmap in Hin. apply in_map_iff in Hin as ([key obj] & Hobj & Hin).
      cbn in Hobj. subst obj.
      apply (nodes_spec _ _ _ _ Hm) in Hin as (o' & Ho' & _ & Hholds).
      apply toObject_inj in Ho' as ->. exact Hholds.
    + intros Hholds.
      assert (Hin : In (registry.toObject T o) (map snd (memstore.nodes T m))).
      { apply in_map_iff.
        exists (registry.keyOf T (registry.idOf T o), registry.toObject T o).
        split; [reflexivity|]. apply (nodes_spec _ _ _ _ Hm). eauto. }
      rewrite <- Hmap in Hin. apply in_map_iff in Hin as (o' & Ho' & Hin).
      apply toObject_inj in Ho' as ->. exact Hin.
  - rewrite !itemsOf_setItemsOf. apply List.NoDup_filter.
    apply (NoDup_map_inv (registry.toObject T)). rewrite Hmap.
    apply nodes_NoDup. exact Hm.
Qed.

End ListOverTheStore.

(** X11: over a reference store that holds every record under its own
    key, a List function succeeds, leaves the store as it was, and
    returns each entity once: an entity is listed exactly when the store
    holds it for that kind (so that a Get of its id returns it) and the
    selector matches its labels; records of the other kinds are never
    listed. *)
Theorem List_returns_what_Get_can_fetch :
  forall (T : runtime.apiType) (selector : labels.Selector)
         (m : gmap string runtime.Object),
    memstore.wellKeyed m ->
    exists l : runtime.listOf T,
      run memstore.store (registry.List T selector) m = ((Some l, None), m) /\
      (forall o : runtime.objOf T,
         In o (registry.itemsOf T l) <->
         run memstore.store (registry.Get T (registry.idOf T o)) m
           = ((Some o, None), m) /\
         labels.Matches selector (registry.labelsOf T o) = true) /\
      List.NoDup (registry.itemsOf T l).
Proof.
  intros T selector m Hm.
  destruct (List_over_store T selector m Hm) as (l & Hrun & Hitems & Hnodup).
  exists l. split; [exact Hrun|]. split; [|exact Hnodup].
  intros o. rewrite Hitems. apply and_iff_compat_r. split.
  - apply Get_holds.
  - rewrite run_Get. unfold memstore.holds.
    destruct (m !! _) as [obj|]; [|discriminate].
    destruct (memstore.decode T obj) as [o'|] eqn:Hobj; [|discriminate].
    intros [= ->]. apply decode_Some in Hobj as ->. reflexivity.
Qed.

Lemma List_returns_what_Get_can_fetch_witness :
  exists l,
    run memstore.store (deployetcd.ListDeployments (fake.labelled "env" "prod"))
        {[ "/deployments/a" := runtime.Deployment (fake.deployment "a" "prod") ]}
      = ((Some l, None),
         {[ "/deployments/a"
            := runtime.Deployment (fake.deployment "a" "prod") ]}) /\
    In (fake.deployment "a" "prod") (deployapi.DeploymentList.Items l).
Proof.
  destruct (List_returns_what_Get_can_fetch runtime.TDeployment
              (fake.labelled "env" "prod")
              {[ "/deployments/a"
                 := runtime.Deployment (fake.deployment "a" "prod") ]})
    as (l & Hrun & Hitems & _).
  { apply (wellKeyed_insert runtime.TDeployment (fake.deployment "a" "prod") ∅).
    intros key obj. rewrite lookup_empty. discriminate. }
  exists l. split; [exact Hrun|].
  apply Hitems. split; reflexivity.
Defined.

(** X12: over a reference store that holds every record under its own
    key, an entity that a Create has just written is in the collection
    of every List whose selector matches its labels, and after a Delete
    of an id, whether it succeeded or not, no List returns an entity
    with that id. *)
Theorem List_reflects_Create_and_Delete :
  forall (T : runtime.apiType) (o : runtime.objOf T) (id : string)
         (selector : labels.Selector) (m : gmap string runtime.Object),
    memstore.wellKeyed m ->
    (forall m',
       run memstore.store (registry.Create T o) m = (None, m') ->
       labels.Matches selector (registry.labelsOf T o) = true ->
       exists l : runtime.listOf T,
         run memstore.store (registry.List T selector) m' = ((Some l, None), m') /\
         In o (registry.itemsOf T l)) /\
    (exists l : runtime.listOf T,
       run memstore.store
           (registry.Delete T id ≫= fun _ => registry.List T selector) m
         = ((Some l, None), delete (registry.keyOf T id) m) /\
       forall o' : runtime.objOf T,
         In o' (registry.itemsOf T l) -> registry.idOf T o' <> id).
Proof.
  intros T o id selector m Hm. split.
  - intros m'. rewrite run_Create.
    destruct (m !! _); [discriminate|]. intros [= <-] Hmatches.
    destruct (List_over_store T selector _ (wellKeyed_insert T o m Hm))
      as (l & Hrun & Hitems & _).
    exists l. split; [exact Hrun|].
    apply Hitems. split; [apply lookup_insert_eq | exact Hmatches].
  - destruct (List_over_store T selector _
                (wellKeyed_delete (registry.keyOf T id) m Hm))
      as (l & Hrun & Hitems & _).
    exists l. split.
    + unfold mbind, Prog_bind. rewrite run_bind, run_Delete.
      destruct (m !! registry.keyOf T id) eqn:Hkey; [exact Hrun|].
      rewrite (delete_id m _ Hkey) in Hrun. rewrite Hrun.
      rewrite (delete_id m _ Hkey). reflexivity.
    + intros o' Hin Hid. apply Hitems in Hin as [Hholds _].
      unfold memstore.holds in Hholds.
      rewrite Hid, lookup_delete_eq in Hholds. discriminate.
Qed.

Lemma List_reflects_Create_and_Delete_witness :
  exists l,
    run memstore.store (imageetcd.ListImages labels.Everything)
        {[ "/images/i" := runtime.Image (fake.image "i") ]}
      = ((Some l, None), {[ "/images/i" := runtime.Image (fake.image "i") ]}) /\
    In (fake.image "i") (imageapi.ImageList.Items l).
Proof.
  destruct (List_reflects_Create_and_Delete runtime.TImage (fake.image "i") "i"
              labels.Everything ∅) as [Hcreate _].
  { intros key obj. rewrite lookup_empty. discriminate. }
  apply (Hcreate {[ "/images/i" := runtime.Image (fake.image "i") ]});
    reflexivity.
Defined.
